(** * pug: task listing, state reconciliation and bulk run creation

    A shallow embedding of
    - the task service ([task.Service]: Create, List, Delete, Counter),
    - the state service ([state.Service]: Reload, Delete, Taint and their
      helpers), and
    - the run page helpers ([run.CreateRuns], [run.HandleCreatedRuns]),
    together with the properties they are expected to satisfy.

    Go pointers into a table are modelled by the table rows themselves: a
    table is the only holder of its entities, and a mutator handed to
    [Table.Update] returns the new row.  Variables captured and assigned
    by a Go closure are threaded through explicitly.  Nil-able Go values
    (pointers, slices compared against nil, optional callbacks) are
    [option]s, with [None] for nil.  Event publication and logging have no
    influence on any value studied here and are left out. *)

From stdpp Require Import gmap strings list sorting pretty.
From Stdlib Require Import ZArith.

Set Warnings "-register-all".

Open Scope Z_scope.

(** ** Errors *)

(** The error classes of the engine.  [Errorf msg wrapped] is a call of
    [fmt.Errorf]: [msg] is the formatted text up to the verb [%w], and
    [wrapped] the error that verb wraps, if the format has one.  [Panic]
    stands for a run-time panic (nil dereference): a call whose result
    is [inl Panic] has not returned, and its callers pass the panic on
    without running anything more. *)
Inductive error : Type :=
  | NotFound
  | InvalidState
  | ValidationError
  | ExecutionFailure
  | Panic
  | Errorf (msg : string) (wrapped : option error).

(** A Go result pair [(T, error)] in which exactly one side is set. *)
Definition result (T : Type) : Type := sum error T.

(** ** Package resource *)

Module resource.

(** Identifiers; the zero value is the ID of the global entity. *)
Definition ID : Type := N.
Definition GlobalID : ID := 0%N.

Inductive Kind : Type := Global | Module | Workspace | Run | Task | State.

(** An entity's identity: its ID, its kind and a pointer to its parent
    (nil for the root). *)
Inductive Resource : Type :=
  MkResource (id : ID) (kind : Kind) (parent : option Resource).

Definition rID (r : Resource) : ID :=
  match r with MkResource i _ _ => i end.
Definition rKind (r : Resource) : Kind :=
  match r with MkResource _ k _ => k end.
Definition Parent (r : Resource) : option Resource :=
  match r with MkResource _ _ p => p end.

Definition GlobalResource : Resource := MkResource GlobalID Global None.

(** Modelled from the spec: [Resource.HasAncestor] of package resource,
    which is not among the sources.  "[HasAncestor(id)] is true if [id]
    equals the entity's own ID or appears anywhere in its parent chain
    (the zero-value ID denotes Global and is an ancestor of
    everything)". *)
Fixpoint HasAncestor (r : Resource) (id : ID) : bool :=
  match r with
  | MkResource own _ parent =>
      bool_decide (id = GlobalID)
      || bool_decide (own = id)
      || match parent with
         | Some p => HasAncestor p id
         | None => false
         end
  end.

(** Modelled from the spec: the generic entity table [resource.Table] of
    package resource, which is not among the sources.  A keyed store;
    [Add] inserts or replaces; [Update] runs the mutator on the live row
    and fails with NotFound, without running it, when the key is absent;
    [Get] fails with NotFound on an absent key; [List] is a snapshot in
    unspecified order; [Delete] of an absent key is a no-op. *)
Section Table.
Context {T : Type}.

Definition Add (id : ID) (row : T) (t : gmap ID T) : gmap ID T :=
  <[id := row]> t.

(** The mutator may also assign variables it captured; their values
    before and after are the [C] component. *)
Definition Update {C : Type} (id : ID) (updater : T → C → T * C)
    (t : gmap ID T) (captured : C) : gmap ID T * C * result T :=
  match t !! id with
  | None => (t, captured, inl NotFound)
  | Some row =>
      let '(row', captured') := updater row captured in
      (<[id := row']> t, captured', inr row')
  end.

Definition Get (id : ID) (t : gmap ID T) : result T :=
  match t !! id with
  | Some row => inr row
  | None => inl NotFound
  end.

Definition List (t : gmap ID T) : list T := (map_to_list t).*2.

Definition Delete (id : ID) (t : gmap ID T) : gmap ID T := delete id t.
End Table.

End resource.

(** ** Go library functions *)

(** [time.Time] as an instant on the integer time line, and
    [Time.Compare], which yields -1, 0 or +1. *)
Definition Time : Type := Z.

Definition Time_Compare (a b : Time) : Z :=
  match a ?= b with
  | Lt => -1
  | Eq => 0
  | Gt => 1
  end.

(** [slices.Contains] and [slices.Equal]. *)
Definition slices_Contains {A} `{EqDecision A} (s : list A) (v : A) : bool :=
  bool_decide (v ∈ s).

Definition slices_Equal {A} `{EqDecision A} (s1 s2 : list A) : bool :=
  bool_decide (s1 = s2).

(** [a] is placed no later than [b] by the comparison function [cmp]. *)
Definition cmp_le {A} (cmp : A → A → Z) : relation A :=
  λ a b, cmp a b ≤ 0.

Global Instance cmp_le_dec {A} (cmp : A → A → Z) (a b : A) :
  Decision (cmp_le cmp a b).
Proof. unfold cmp_le. apply _. Defined.

(** The contract of [slices.SortFunc]: the slice is rearranged (not
    necessarily stably) into ascending order as determined by [cmp],
    provided [cmp] is a consistent ordering. *)
Record SortFuncSpec (sortFunc : ∀ A, (A → A → Z) → list A → list A) : Prop := {
  sortFunc_perm : ∀ A (cmp : A → A → Z) (l : list A), sortFunc A cmp l ≡ₚ l;
  sortFunc_sorted : ∀ A (cmp : A → A → Z) (l : list A),
    Transitive (cmp_le cmp) → Total (cmp_le cmp) →
    Sorted (cmp_le cmp) (sortFunc A cmp l)
}.

(** One sorting function that meets the contract. *)
Definition mergeSortFunc (A : Type) (cmp : A → A → Z) (l : list A) : list A :=
  merge_sort (cmp_le cmp) l.

(** Go's [int] on a 64-bit platform: arithmetic wraps around. *)
Definition wrap_int (z : Z) : Z := (z + 2 ^ 63) mod 2 ^ 64 - 2 ^ 63.

(** ** Package task *)

Module task.

Inductive Status : Type :=
  Pending | Queued | Running | Exited | Errored | Canceled.

Global Instance Status_eq_dec : EqDecision Status.
Proof. solve_decision. Defined.

(** The fields of a [Task] that hold data.  [Resource] is the embedded
    identity; [Output] is what the task has written so far, as handed
    out by [NewReader]. *)
Record TaskData : Type := mkTaskData {
  Resource : resource.Resource;
  Command : list string;
  Args : list string;
  Path : string;
  Env : list string;
  Blocking : bool;
  State : Status;
  Updated : Time;
  Err : option error;
  Output : string
}.

Definition ID (t : TaskData) : resource.ID := resource.rID (Resource t).

Definition HasAncestor (t : TaskData) (id : resource.ID) : bool :=
  resource.HasAncestor (Resource t) id.

(** A callback [func(t *Task)]: it reads the task and may change the
    state of its owner, of type [W]; nil is [None]. *)
Definition Callback (W : Type) : Type := option (TaskData → W → W).

Definition invoke {W} (cb : Callback W) (t : TaskData) (w : W) : W :=
  match cb with
  | Some f => f t w
  | None => w
  end.

(** A task: its data and the callbacks it was created with. *)
Record Task (W : Type) : Type := mkTask {
  data :> TaskData;
  AfterExited : Callback W;
  AfterError : Callback W;
  AfterCanceled : Callback W;
  AfterFinish : Callback W
}.
Arguments mkTask {W}.
Arguments data {W}.
Arguments AfterExited {W}.
Arguments AfterError {W}.
Arguments AfterCanceled {W}.
Arguments AfterFinish {W}.

Module CreateOptions.
Record t (W : Type) : Type := mk {
  Parent : resource.Resource;
  Command : list string;
  Args : list string;
  Path : string;
  Env : list string;
  Blocking : bool;
  AfterCreate : Callback W;
  AfterExited : Callback W;
  AfterError : Callback W;
  AfterCanceled : Callback W;
  AfterFinish : Callback W
}.
Arguments mk {W}.
Arguments Parent {W}.
Arguments Command {W}.
Arguments Args {W}.
Arguments Path {W}.
Arguments Env {W}.
Arguments Blocking {W}.
Arguments AfterCreate {W}.
Arguments AfterExited {W}.
Arguments AfterError {W}.
Arguments AfterCanceled {W}.
Arguments AfterFinish {W}.
End CreateOptions.

Module ListOptions.
(** [Path] is a [*string]; [Status] and [Command] are slices that
    [List] compares against nil, so nil and the empty non-nil slice
    are kept apart: [None] is nil, [Some []] is empty but not nil. *)
Record t : Type := mk {
  Path : option string;
  Status : option (list Status);
  Oldest : bool;
  Blocking : bool;
  Command : option (list (list string));
  Ancestor : resource.ID
}.
End ListOptions.

(** The task service: the task table and the counter of live tasks (one
    cell, shared by the service and its factory). *)
Record Service (W : Type) : Type := mkService {
  table : gmap resource.ID (Task W);
  counter : Z
}.
Arguments mkService {W}.
Arguments table {W}.
Arguments counter {W}.

Section service.
Context {W : Type}.

(** Modelled from the spec: [factory.newTask] and the zero state of a
    task, of package task, which are not among the sources.  "Create
    validates the command is non-empty, assigns an ID parented under
    [options.Parent], sets state Pending"; the options' fields and
    terminal callbacks are kept by the task.  The fresh identifier and
    the clock reading are inputs. *)
Definition newTask (id : resource.ID) (now : Time)
    (opts : CreateOptions.t W) : result (Task W) :=
  match CreateOptions.Command opts with
  | [] => inl ValidationError
  | _ :: _ =>
      inr {| data := {|
               Resource := resource.MkResource id resource.Task
                             (Some (CreateOptions.Parent opts));
               Command := CreateOptions.Command opts;
               Args := CreateOptions.Args opts;
               Path := CreateOptions.Path opts;
               Env := CreateOptions.Env opts;
               Blocking := CreateOptions.Blocking opts;
               State := Pending;
               Updated := now;
               Err := None;
               Output := "" |};
             AfterExited := CreateOptions.AfterExited opts;
             AfterError := CreateOptions.AfterError opts;
             AfterCanceled := CreateOptions.AfterCanceled opts;
             AfterFinish := CreateOptions.AfterFinish opts |}
  end.

(** [Service.Create].  The goroutine it starts only waits for the task
    and drops the outcome; it changes nothing. *)
Definition Create (id : resource.ID) (now : Time)
    (opts : CreateOptions.t W) (s : Service W) (w : W)
    : Service W * W * result (Task W) :=
  match newTask id now opts with
  | inl err => (s, w, inl err)
  | inr task =>
      (* Add to db *)
      let tbl := resource.Add (ID task) task (table s) in
      (* Increment counter of number of live tasks *)
      let s' := {| table := tbl; counter := wrap_int (counter s + 1) |} in
      let w' := invoke (CreateOptions.AfterCreate opts) task w in
      (s', w', inr task)
  end.

(** The command filter of [List]: the loop over [opts.Command] leaves
    by [break] at the first equal command and falls through otherwise;
    the value says whether it left by [break]. *)
Fixpoint commandLoop (cmds : list (list string)) (t : TaskData) : bool :=
  match cmds with
  | [] => false
  | cmd :: rest =>
      if slices_Equal cmd (Command t) then true else commandLoop rest t
  end.

(** One pass of the body of the filtering loop of [List]: [false] when
    the body leaves by [continue], [true] when it reaches
    [tasks[i] = t]. *)
Definition keep (opts : ListOptions.t) (t : TaskData) : bool :=
  if match ListOptions.Path opts with
     | Some p => negb (String.eqb p (Path t))
     | None => false
     end
  then false
  else if match ListOptions.Status opts with
          | Some sts => negb (slices_Contains sts (State t))
          | None => false
          end
  then false
  else if ListOptions.Blocking opts && negb (Blocking t)
  then false
  else
    let _ := match ListOptions.Command opts with
             | Some cmds => commandLoop cmds t
             | None => false
             end in
    if negb (HasAncestor t (ListOptions.Ancestor opts))
    then false
    else true.

(** The filtering loop, in place: iteration [j] reads [tasks[j]] and,
    when the task is kept, writes it to [tasks[i]] and advances [i].
    [n] counts the iterations left. *)
Fixpoint rangeLoop (opts : ListOptions.t) (n j : nat)
    (tasks : list (Task W)) (i : nat) : list (Task W) * nat :=
  match n with
  | O => (tasks, i)
  | S n' =>
      match (tasks !! j : option (Task W)) with
      | None => (tasks, i)
      | Some t =>
          if keep opts t
          then rangeLoop opts n' (S j) (<[i := t]> tasks) (S i)
          else rangeLoop opts n' (S j) tasks i
      end
  end.

(** The comparison function handed to [slices.SortFunc]. *)
Definition byUpdated (opts : ListOptions.t) (a b : Task W) : Z :=
  let cmp := Time_Compare (Updated a) (Updated b) in
  if ListOptions.Oldest opts then cmp else - cmp.

Section List.
Variable SortFunc : ∀ A, (A → A → Z) → list A → list A.

(** [Service.List]. *)
Definition List (s : Service W) (opts : ListOptions.t) : list (Task W) :=
  let tasks := resource.List (table s) in
  (* Filter list according to options *)
  let '(tasks, i) := rangeLoop opts (length tasks) 0 tasks 0 in
  let tasks := take i tasks in
  (* Sort list according to options *)
  SortFunc _ (byUpdated opts) tasks.
End List.

(** [Service.Get], [Service.Delete] and [Service.Counter]. *)
Definition Get (taskID : resource.ID) (s : Service W) : result (Task W) :=
  resource.Get taskID (table s).

Definition Delete (taskID : resource.ID) (s : Service W)
    : Service W * option error :=
  ({| table := resource.Delete taskID (table s); counter := counter s |},
   None).

Definition Counter (s : Service W) : Z := counter s.

(** Modelled from the spec: the terminal transition of a task and the
    waiter that runs its callbacks, of package task, which are not
    among the sources.  A task ends as Exited, Errored or Canceled;
    the waiter "invokes the appropriate terminal hook (AfterExited,
    AfterError, AfterCanceled) and finally AfterFinish regardless of
    outcome", once, in that order. *)
Inductive Outcome : Type :=
  | OutExited (output : string)
  | OutErrored (err : error) (output : string)
  | OutCanceled (output : string).

Definition finish (now : Time) (o : Outcome) (t : Task W) : Task W :=
  let d := data t in
  let '(st, e, out) :=
    match o with
    | OutExited out => (Exited, Err d, out)
    | OutErrored err out => (Errored, Some err, out)
    | OutCanceled out => (Canceled, Err d, out)
    end in
  {| data := {| Resource := Resource d; Command := Command d;
                Args := Args d; Path := Path d; Env := Env d;
                Blocking := Blocking d; State := st; Updated := now;
                Err := e; Output := out |};
     AfterExited := AfterExited t; AfterError := AfterError t;
     AfterCanceled := AfterCanceled t; AfterFinish := AfterFinish t |}.

Definition terminalCallbacks (t : Task W) (w : W) : W :=
  let w1 :=
    match State t with
    | Exited => invoke (AfterExited t) t w
    | Errored => invoke (AfterError t) t w
    | Canceled => invoke (AfterCanceled t) t w
    | _ => w
    end in
  invoke (AfterFinish t) t w1.

(** The task ends with outcome [o] at time [now]; its callbacks run on
    the owner's state [w]. *)
Definition settle (now : Time) (o : Outcome) (t : Task W) (w : W) : W :=
  terminalCallbacks (finish now o t) w.
End service.

Module ServiceOptions.
Record t : Type := mk { Program : string }.
End ServiceOptions.

Section lifecycle.
Context {W : Type}.

(** [task.updateState] and [task.cancel] are methods of [Task] that are
    not among the sources.  They act on the task behind the pointer held
    by the table, and on whatever their callbacks reach; here they map
    the task and the owner's state to their new values. *)
Variable updateState : Status → Task W → W → Task W * W.
Variable cancel : Task W → W → Task W * W.

(** [NewService]: an empty table and a zero counter; the program name is
    kept by the factory for running tasks. *)
Definition NewService (opts : ServiceOptions.t) : Service W :=
  {| table := ∅; counter := 0 |}.

(** [Service.Enqueue]: moves the task onto the global queue for
    processing. *)
Definition Enqueue (taskID : resource.ID) (s : Service W) (w : W)
    : Service W * W * result (Task W) :=
  match resource.Get taskID (table s) with
  | inl err => (s, w, inl (Errorf "enqueuing task: " (Some err)))
  | inr task =>
      let '(task', w') := updateState Queued task w in
      ({| table := <[taskID := task']> (table s); counter := counter s |},
       w', inr task')
  end.

(** [Service.Cancel]. *)
Definition Cancel (taskID : resource.ID) (s : Service W) (w : W)
    : Service W * W * result (Task W) :=
  match resource.Get taskID (table s) with
  | inl err => (s, w, inl err)
  | inr task =>
      let '(task', w') := cancel task w in
      ({| table := <[taskID := task']> (table s); counter := counter s |},
       w', inr task')
  end.
End lifecycle.

End task.

Coercion task.data : task.Task >-> task.TaskData.

(** ** Packages module and workspace *)

Module module.
(** Modelled from the spec: the [Module] entity of package module, which
    is not among the sources: "a named infrastructure source directory",
    with its identity and its path. *)
Record Module : Type := mkModule {
  Resource : resource.Resource;
  Path : string
}.
End module.

Module workspace.

Record Workspace : Type := mkWorkspace {
  Resource : resource.Resource;
  Name : string;
  (* The workspace's current or last active run. *)
  CurrentRunID : option resource.ID;
  AutoApply : bool
}.

(** [resource.New] draws a fresh identifier, here the input [id]. *)
Definition New (id : resource.ID) (mdl : module.Module) (name : string)
    : Workspace :=
  {| Resource := resource.MkResource id resource.Workspace
                   (Some (module.Resource mdl));
     Name := name;
     CurrentRunID := None;
     AutoApply := false |}.

(** [ws.Parent.ID]; dereferencing a nil parent panics. *)
Definition ModuleID (ws : Workspace) : result resource.ID :=
  match resource.Parent (Resource ws) with
  | Some p => inr (resource.rID p)
  | None => inl Panic
  end.

Definition TerraformEnv (name : string) : string :=
  "TF_WORKSPACE=" +:+ name.

Definition Workspace_TerraformEnv (ws : Workspace) : string :=
  TerraformEnv (Name ws).

End workspace.

(** ** Package state *)

Module state.

Definition ResourceAddress : Type := string.

Definition ResourceAddress_String (addr : ResourceAddress) : string := addr.

Inductive ResourceStatus : Type := Idle | Tainted | Removing.

Inductive StateStatus : Type := IdleState | ReloadingState.

Global Instance ResourceStatus_eq_dec : EqDecision ResourceStatus.
Proof. solve_decision. Defined.

Global Instance StateStatus_eq_dec : EqDecision StateStatus.
Proof. solve_decision. Defined.

(** Modelled from the spec: the types [State] and its resource record of
    package state, which are not among the sources.  A state "holds a
    mapping from resource address (string) to a StateResource record
    {Address, Type/attributes snapshot, Status} where Status ∈ {Idle,
    Tainted, Removing}; also holds a cache-level status {Idle,
    Reloading}".  The Go field [State.State] is [CacheState] here. *)
Record StateResource : Type := mkStateResource {
  Address : ResourceAddress;
  Attributes : string;
  Status : ResourceStatus
}.

Record State : Type := mkState {
  WorkspaceID : resource.ID;
  Resources : gmap ResourceAddress StateResource;
  CacheState : StateStatus
}.

Definition setStatus (status : ResourceStatus) (res : StateResource)
    : StateResource :=
  {| Address := Address res; Attributes := Attributes res;
     Status := status |}.

Definition setResources (rs : gmap ResourceAddress StateResource)
    (st : State) : State :=
  {| WorkspaceID := WorkspaceID st; Resources := rs;
     CacheState := CacheState st |}.

Definition setCacheState (cs : StateStatus) (st : State) : State :=
  {| WorkspaceID := WorkspaceID st; Resources := Resources st;
     CacheState := cs |}.

(** Modelled from the spec: [State.startReload] of package state, which
    is not among the sources.  Reload "rejects with a conflict error if
    the workspace's cache entry is already Reloading (re-entrancy
    guard); otherwise marks it Reloading"; the error is of the
    InvalidState class. *)
Definition startReload (st : State) : State * option error :=
  match CacheState st with
  | ReloadingState => (st, Some InvalidState)
  | IdleState => (setCacheState ReloadingState st, None)
  end.

(** The table mapping workspace IDs to states. *)
Abbreviation Cache := (gmap resource.ID State).

Record Service : Type := mkService {
  modules : gmap resource.ID module.Module;
  workspaces : gmap resource.ID workspace.Workspace;
  tasks : task.Service Cache;
  cache : Cache
}.

Definition setCache (c : Cache) (s : Service) : Service :=
  {| modules := modules s; workspaces := workspaces s; tasks := tasks s;
     cache := c |}.

Definition setParentEnv (parent : resource.Resource) (env : list string)
    (opts : task.CreateOptions.t Cache) : task.CreateOptions.t Cache :=
  {| task.CreateOptions.Parent := parent;
     task.CreateOptions.Command := task.CreateOptions.Command opts;
     task.CreateOptions.Args := task.CreateOptions.Args opts;
     task.CreateOptions.Path := task.CreateOptions.Path opts;
     task.CreateOptions.Env := env;
     task.CreateOptions.Blocking := task.CreateOptions.Blocking opts;
     task.CreateOptions.AfterCreate := task.CreateOptions.AfterCreate opts;
     task.CreateOptions.AfterExited := task.CreateOptions.AfterExited opts;
     task.CreateOptions.AfterError := task.CreateOptions.AfterError opts;
     task.CreateOptions.AfterCanceled :=
       task.CreateOptions.AfterCanceled opts;
     task.CreateOptions.AfterFinish := task.CreateOptions.AfterFinish opts |}.

Definition setPath (path : string) (opts : task.CreateOptions.t Cache)
    : task.CreateOptions.t Cache :=
  {| task.CreateOptions.Parent := task.CreateOptions.Parent opts;
     task.CreateOptions.Command := task.CreateOptions.Command opts;
     task.CreateOptions.Args := task.CreateOptions.Args opts;
     task.CreateOptions.Path := path;
     task.CreateOptions.Env := task.CreateOptions.Env opts;
     task.CreateOptions.Blocking := task.CreateOptions.Blocking opts;
     task.CreateOptions.AfterCreate := task.CreateOptions.AfterCreate opts;
     task.CreateOptions.AfterExited := task.CreateOptions.AfterExited opts;
     task.CreateOptions.AfterError := task.CreateOptions.AfterError opts;
     task.CreateOptions.AfterCanceled :=
       task.CreateOptions.AfterCanceled opts;
     task.CreateOptions.AfterFinish := task.CreateOptions.AfterFinish opts |}.

(** [Service.createTask]; [id] and [now] are the fresh identifier and the
    clock reading used by the task service. *)
Definition createTask (id : resource.ID) (now : Time)
    (workspaceID : resource.ID) (opts : task.CreateOptions.t Cache)
    (s : Service) : Service * result (task.Task Cache) :=
  match resource.Get workspaceID (workspaces s) with
  | inl err => (s, inl err)
  | inr ws =>
      let opts :=
        setParentEnv (workspace.Resource ws)
          [workspace.Workspace_TerraformEnv ws] opts in
      match workspace.ModuleID ws with
      | inl err => (s, inl err)
      | inr moduleID =>
          match resource.Get moduleID (modules s) with
          | inl err => (s, inl err)
          | inr mdl =>
              let opts := setPath (module.Path mdl) opts in
              let '(ts, c, r) :=
                task.Create id now opts (tasks s) (cache s) in
              ({| modules := modules s; workspaces := workspaces s;
                  tasks := ts; cache := c |}, r)
          end
      end
  end.

(** [Service.updateStateStatus]: the closure handed to the table assigns
    the captured [err]; what the table itself returns is dropped. *)
Definition updateStateStatus (workspaceID : resource.ID)
    (fn : State → State * option error) (c : Cache)
    : Cache * option error :=
  let err : option error := None in
  let '(c', err', _) :=
    resource.Update workspaceID
      (λ existing (err : option error),
         let '(existing', updateErr) := fn existing in
         match updateErr with
         | Some e => (existing', Some e)
         | None => (existing', err)
         end)
      c err in
  (c', err').

(** [Service.updateResourceStatus]: every resource of the entry whose
    [Address] is among [addrs] gets the status [state]. *)
Definition updateResourceStatus (workspaceID : resource.ID)
    (state : ResourceStatus) (addrs : list ResourceAddress) (c : Cache)
    : Cache :=
  let '(c', _, _) :=
    resource.Update workspaceID
      (λ existing (_ : unit),
         (setResources
            ((λ res, if slices_Contains addrs (Address res)
                     then setStatus state res else res)
               <$> Resources existing)
            existing, tt))
      c tt in
  c'.

(** The zero value of [resource.Resource], for option fields left
    unset. *)
Definition zeroResource : resource.Resource :=
  resource.MkResource resource.GlobalID resource.Global None.

Section service.
(** The decoded form of the external payload, the JSON decoder applied
    to what the task wrote ([None] when decoding fails), and the
    constructor of a state from a payload; package state's
    [StateFile] and [NewState] are not among the sources. *)
Context {StateFile : Type}.
Variable decode : string → option StateFile.
Variable NewState : resource.ID → StateFile → State.

(** The closure [revertIdle] of [Reload]. *)
Definition revertIdle (workspaceID : resource.ID) (c : Cache) : Cache :=
  (updateStateStatus workspaceID
     (λ existing, (setCacheState IdleState existing, None)) c).1.

(** The mutator of [Reload]'s AfterExited: for each current resource,
    if it previously existed in the cache, copy across its status.
    It assigns the captured [current] and leaves [previous] as it
    is. *)
Definition copyStatus (previous current : State) : State :=
  setResources
    (map_imap
       (λ currentAddress res,
          match Resources previous !! currentAddress with
          | Some previousResource =>
              Some (setStatus (Status previousResource) res)
          | None => Some res
          end)
       (Resources current))
    current.

Definition reloadAfterExited (workspaceID : resource.ID)
    (t : task.TaskData) (c : Cache) : Cache :=
  match decode (task.Output t) with
  | None => c
  | Some file =>
      let current := NewState workspaceID file in
      let '(c1, current', _) :=
        resource.Update workspaceID
          (λ previous current, (previous, copyStatus previous current))
          c current in
      (* table.Add replaces state if it exists already *)
      resource.Add workspaceID current' c1
  end.

Definition reloadOptions (workspaceID : resource.ID)
    : task.CreateOptions.t Cache :=
  {| task.CreateOptions.Parent := zeroResource;
     task.CreateOptions.Command := ["state"; "pull"]%string;
     task.CreateOptions.Args := [];
     task.CreateOptions.Path := "";
     task.CreateOptions.Env := [];
     task.CreateOptions.Blocking := false;
     task.CreateOptions.AfterCreate := None;
     task.CreateOptions.AfterExited := Some (reloadAfterExited workspaceID);
     task.CreateOptions.AfterError := Some (λ _ c, c);
     task.CreateOptions.AfterCanceled := None;
     task.CreateOptions.AfterFinish :=
       Some (λ _ c, revertIdle workspaceID c) |}.

(** [Service.Reload].  The service paired with [inl Panic] is the one the
    panic leaves behind. *)
Definition Reload (id : resource.ID) (now : Time)
    (workspaceID : resource.ID) (s : Service)
    : Service * result (task.Task Cache) :=
  let '(c, err) := updateStateStatus workspaceID startReload (cache s) in
  let s := setCache c s in
  match err with
  | Some e => (s, inl e)
  | None =>
      let '(s, r) := createTask id now workspaceID
                       (reloadOptions workspaceID) s in
      match r with
      | inl Panic =>
          (* the panic of [createTask] unwinds through [Reload]:
             [revertIdle] is not run *)
          (s, inl Panic)
      | inl e => (setCache (revertIdle workspaceID (cache s)) s, inl e)
      | inr task => (s, inr task)
      end
  end.
End service.

(** The mutator of [Delete]'s AfterExited: remove resources from
    cache. *)
Definition removeResources (addrs : list ResourceAddress)
    (existing : State) : State :=
  setResources
    (foldl (λ rs addr, delete addr rs) (Resources existing) addrs)
    existing.

Definition deleteOptions (workspaceID : resource.ID)
    (addrs : list ResourceAddress) : task.CreateOptions.t Cache :=
  let addrStrings := ResourceAddress_String <$> addrs in
  {| task.CreateOptions.Parent := zeroResource;
     task.CreateOptions.Command := ["state"; "rm"]%string;
     task.CreateOptions.Args := addrStrings;
     task.CreateOptions.Path := "";
     task.CreateOptions.Env := [];
     task.CreateOptions.Blocking := true;
     task.CreateOptions.AfterCreate :=
       Some (λ _ c, updateResourceStatus workspaceID Removing addrs c);
     task.CreateOptions.AfterExited :=
       Some (λ _ c,
               (resource.Update workspaceID
                  (λ existing (_ : unit),
                     (removeResources addrs existing, tt))
                  c tt).1.1);
     task.CreateOptions.AfterError :=
       Some (λ _ c, updateResourceStatus workspaceID Idle addrs c);
     task.CreateOptions.AfterCanceled :=
       Some (λ _ c, updateResourceStatus workspaceID Idle addrs c);
     task.CreateOptions.AfterFinish := None |}.

(** [Service.Delete]. *)
Definition Delete (id : resource.ID) (now : Time)
    (workspaceID : resource.ID) (addrs : list ResourceAddress)
    (s : Service) : Service * result (task.Task Cache) :=
  createTask id now workspaceID (deleteOptions workspaceID addrs) s.

Definition taintOptions (addr : string) : task.CreateOptions.t Cache :=
  {| task.CreateOptions.Parent := zeroResource;
     task.CreateOptions.Command := ["taint"]%string;
     task.CreateOptions.Args := [addr];
     task.CreateOptions.Path := "";
     task.CreateOptions.Env := [];
     task.CreateOptions.Blocking := true;
     task.CreateOptions.AfterCreate := None;
     task.CreateOptions.AfterExited := None;
     task.CreateOptions.AfterError := None;
     task.CreateOptions.AfterCanceled := None;
     task.CreateOptions.AfterFinish := None |}.

(** [Service.Taint]. *)
Definition Taint (id : resource.ID) (now : Time)
    (workspaceID : resource.ID) (addr : string) (s : Service)
    : Service * result (task.Task Cache) :=
  createTask id now workspaceID (taintOptions addr) s.

Module ServiceOptions.
Record t : Type := mk {
  ModuleService : gmap resource.ID module.Module;
  WorkspaceService : gmap resource.ID workspace.Workspace;
  TaskService : task.Service Cache
}.
End ServiceOptions.

(** [NewService]: the given services and an empty cache. *)
Definition NewService (opts : ServiceOptions.t) : Service :=
  {| modules := ServiceOptions.ModuleService opts;
     workspaces := ServiceOptions.WorkspaceService opts;
     tasks := ServiceOptions.TaskService opts;
     cache := ∅ |}.

End state.

(** ** Package tui/run *)

Module run.

(** Where [HandleCreatedRuns] sends the user: the commands built by
    [navigator.Go] for a run's page and for the run listing of the
    issuer. *)
Inductive Navigate (Run : Type) : Type :=
  | GoRun (target : option Run)
  | GoRunList (issuer : resource.Resource).
Arguments GoRun {Run}.
Arguments GoRunList {Run}.

(** The message built by [CreateRuns].  [Runs] holds [*run.Run]
    pointers, nil among them. *)
Record CreatedRunsMsg (Run : Type) : Type := mkCreatedRunsMsg {
  Runs : list (option Run);
  (* Errors from creating tasks *)
  CreateErrs : list error;
  (* The parent resource of the page on which the request to create runs
     was issued. *)
  Issuer : resource.Resource
}.
Arguments mkCreatedRunsMsg {Run}.
Arguments Runs {Run}.
Arguments CreateErrs {Run}.
Arguments Issuer {Run}.

Section run.
(** The run type, the state of the run service and its create options
    are those of package run, which is not among the sources.
    [runsCreate] is [tui.RunService.Create], returning Go's pair of
    a [*run.Run] and an error; [RunString] is the text [%s] prints for a
    [*run.Run]. *)
Context {Run RS CreateOptions : Type}.
Variable runsCreate :
  resource.ID → CreateOptions → RS → RS * (option Run * option error).
Variable RunString : option Run → string.

(** The loop over [workspaceIDs] in the command built by
    [CreateRuns]. *)
Fixpoint createLoop (opts : CreateOptions)
    (workspaceIDs : list resource.ID) (msg : CreatedRunsMsg Run)
    (rs : RS) : RS * CreatedRunsMsg Run :=
  match workspaceIDs with
  | [] => (rs, msg)
  | wid :: rest =>
      let '(rs, (run, err)) := runsCreate wid opts rs in
      let msg :=
        match err with
        | Some e =>
            {| Runs := Runs msg; CreateErrs := CreateErrs msg ++ [e];
               Issuer := Issuer msg |}
        | None => msg
        end in
      let msg :=
        {| Runs := Runs msg ++ [run]; CreateErrs := CreateErrs msg;
           Issuer := Issuer msg |} in
      createLoop opts rest msg rs
  end.

(** [CreateRuns]: nil for no workspace, else the command that creates
    the runs and returns the message. *)
Definition CreateRuns (issuer : resource.Resource) (opts : CreateOptions)
    (workspaceIDs : list resource.ID)
    : option (RS → RS * CreatedRunsMsg Run) :=
  match workspaceIDs with
  | [] => None
  | _ :: _ =>
      Some (λ rs,
              let msg :=
                {| Runs := []; CreateErrs := []; Issuer := issuer |} in
              createLoop opts workspaceIDs msg rs)
  end.

(** [HandleCreatedRuns]: where to navigate, the info text and the
    error. *)
Definition HandleCreatedRuns (msg : CreatedRunsMsg Run)
    : option (Navigate Run) * string * option error :=
  (* Determine whether and where to navigate the user to. *)
  let navigate :=
    match Runs msg with
    | [] => None
    | [r] => Some (GoRun r)
    | _ => Some (GoRunList (Issuer msg))
    end in
  let runs := length (Runs msg) in
  let errs := length (CreateErrs msg) in
  let '(info, err) :=
    if (runs =? 1)%nat then
      ("created " +:+ RunString (Runs msg !!! 0%nat) +:+ " successfully",
       None)
    else if (runs =? 0)%nat && (errs =? 1)%nat then
      (* User attempted to create one run but it failed to be
         created *)
      ("", Some (Errorf "creating run failed: " (CreateErrs msg !! 0%nat)))
    else if (runs =? 0)%nat && (1 <? errs)%nat then
      (* User attempted to created multiple runs and they all failed
         to be created *)
      ("", Some (Errorf ("creating " +:+ pretty errs
                         +:+ " runs failed: see logs") None))
    else if (0 <? errs)%nat then
      (* User attempted to create multiple runs and at least one failed
         to be created, and at least one succeeded *)
      ("", Some (Errorf ("created " +:+ pretty runs +:+ " runs; "
                         +:+ pretty errs
                         +:+ " failed to be created; see logs") None))
    else
      (* User attempted to create multiple runs and all were
         successfully created. *)
      ("created " +:+ pretty runs +:+ " runs successfully", None) in
  (navigate, info, err).
End run.

End run.

(** ** Package tui/task: the geometry of the task page *)

Module tuitask.

(** The fields of [model] that its geometry depends on. *)
Record model : Type := mkModel {
  showInfo : bool;
  border : bool;
  height : Z;
  width : Z
}.

(** [infoWidth] is the width of the optional task info sidebar to the
    left of the viewport. *)
Definition infoWidth : Z := 35.

(** [model.viewportWidth].  The receiver is a copy: the subtractions do
    not reach the caller's model. *)
Definition viewportWidth (m : model) : Z :=
  let width := width m in
  let width := if border m then wrap_int (width - 2) else width in
  let width := if showInfo m then wrap_int (width - infoWidth) else width in
  Z.max 0 width.

(** [model.setHeight], on a pointer receiver. *)
Definition setHeight (height : Z) (m : model) : model :=
  let height := if border m then wrap_int (height - 2) else height in
  {| showInfo := showInfo m; border := border m; height := height;
     width := width m |}.

(** The [tea.WindowSizeMsg] case of [model.Update], up to the viewport:
    the new model and the dimensions handed to
    [viewport.SetDimensions]. *)
Definition windowSize (msgWidth msgHeight : Z) (m : model)
    : model * (Z * Z) :=
  let m := {| showInfo := showInfo m; border := border m;
              height := height m; width := msgWidth |} in
  let m := setHeight msgHeight m in
  (m, (viewportWidth m, height m)).

Definition boolToOnOff (b : bool) : string :=
  if b then "on" else "off".

End tuitask.

(** * Auxiliary definitions

    Predicates and abbreviations used in the statements, and small
    concrete inputs on which the definitions above are run. *)

(** The options as [createTask] hands them to the task service. *)
Definition finalOptions (ws : workspace.Workspace) (mdl : module.Module)
    (opts : task.CreateOptions.t state.Cache)
    : task.CreateOptions.t state.Cache :=
  state.setPath (module.Path mdl)
    (state.setParentEnv (workspace.Resource ws)
       [workspace.Workspace_TerraformEnv ws] opts).

(** The task [newTask] builds from options with a command. *)
Definition builtTask (id : resource.ID) (now : Time)
    (opts : task.CreateOptions.t state.Cache) : task.Task state.Cache :=
  {| task.data := {|
       task.Resource := resource.MkResource id resource.Task
                          (Some (task.CreateOptions.Parent opts));
       task.Command := task.CreateOptions.Command opts;
       task.Args := task.CreateOptions.Args opts;
       task.Path := task.CreateOptions.Path opts;
       task.Env := task.CreateOptions.Env opts;
       task.Blocking := task.CreateOptions.Blocking opts;
       task.State := task.Pending;
       task.Updated := now;
       task.Err := None;
       task.Output := "" |};
     task.AfterExited := task.CreateOptions.AfterExited opts;
     task.AfterError := task.CreateOptions.AfterError opts;
     task.AfterCanceled := task.CreateOptions.AfterCanceled opts;
     task.AfterFinish := task.CreateOptions.AfterFinish opts |}.

(** Every resource of the state is stored under its own address. *)
Definition keyed (st : state.State) : Prop :=
  ∀ a res, state.Resources st !! a = Some res → state.Address res = a.

(** A small task table used to run the definitions: module 1 owns tasks
    10 and 11, task 12 hangs directly under the global entity. *)
Definition exModule : resource.Resource :=
  resource.MkResource 1%N resource.Module (Some resource.GlobalResource).

Definition exTask (id : resource.ID) (parent : resource.Resource)
    (cmd : list string) (blocking : bool) (st : task.Status) (upd : Time)
    : task.Task unit :=
  {| task.data := {|
       task.Resource := resource.MkResource id resource.Task (Some parent);
       task.Command := cmd; task.Args := []; task.Path := "mod";
       task.Env := []; task.Blocking := blocking; task.State := st;
       task.Updated := upd; task.Err := None; task.Output := "" |};
     task.AfterExited := None; task.AfterError := None;
     task.AfterCanceled := None; task.AfterFinish := None |}.

Definition exTaskA : task.Task unit :=
  exTask 10%N exModule ["plan"]%string false task.Running 30.
Definition exTaskB : task.Task unit :=
  exTask 11%N exModule ["apply"]%string true task.Exited 10.
Definition exTaskC : task.Task unit :=
  exTask 12%N resource.GlobalResource ["init"]%string false task.Pending 20.

Definition exTasks : task.Service unit :=
  {| task.table := {[ 10%N := exTaskA; 11%N := exTaskB; 12%N := exTaskC ]};
     task.counter := 3 |}.

Definition exListOptions (status : option (list task.Status))
    (oldest : bool) (command : option (list (list string)))
    (ancestor : resource.ID) : task.ListOptions.t :=
  {| task.ListOptions.Path := None;
     task.ListOptions.Status := status;
     task.ListOptions.Oldest := oldest;
     task.ListOptions.Blocking := false;
     task.ListOptions.Command := command;
     task.ListOptions.Ancestor := ancestor |}.

(** A small world used to run the state service: module 1 at
    [infra/dev] owns workspace 2, whose state has a Tainted and an Idle
    resource.  The payload of a state pull is modelled by the list of its
    addresses; the stand-in decoder reads the task's output as one address
    and adds [aws.c]. *)
Definition exWsModule : module.Module :=
  {| module.Resource := exModule; module.Path := "infra/dev" |}.

Definition exWorkspace : workspace.Workspace :=
  workspace.New 2%N exWsModule "default".

Definition exResource (a : state.ResourceAddress)
    (status : state.ResourceStatus) : state.StateResource :=
  {| state.Address := a; state.Attributes := "{}"; state.Status := status |}.

Definition exState (cs : state.StateStatus) : state.State :=
  {| state.WorkspaceID := 2%N;
     state.Resources :=
       {[ "aws.a"%string := exResource "aws.a" state.Tainted;
          "aws.b"%string := exResource "aws.b" state.Idle ]};
     state.CacheState := cs |}.

Definition exService (c : gmap resource.ID state.State) : state.Service :=
  {| state.modules := {[ 1%N := exWsModule ]};
     state.workspaces := {[ 2%N := exWorkspace ]};
     state.tasks := {| task.table := ∅; task.counter := 0 |};
     state.cache := c |}.

Definition exDecode (out : string) : option (list state.ResourceAddress) :=
  if String.eqb out "" then None else Some [out; "aws.c"%string].

Definition exNewState (workspaceID : resource.ID)
    (file : list state.ResourceAddress) : state.State :=
  {| state.WorkspaceID := workspaceID;
     state.Resources :=
       list_to_map ((λ a, (a, exResource a state.Idle)) <$> file);
     state.CacheState := state.IdleState |}.

Definition exIdleService : state.Service :=
  exService {[ 2%N := exState state.IdleState ]}.

Definition exReloadingService : state.Service :=
  exService {[ 2%N := exState state.ReloadingState ]}.

(** A service whose workspace 4 has no parent, with a cache entry for
    it. *)
Definition exOrphanService : state.Service :=
  {| state.modules := {[ 1%N := exWsModule ]};
     state.workspaces :=
       {[ 4%N := {| workspace.Resource :=
                      resource.MkResource 4%N resource.Workspace None;
                    workspace.Name := "orphan";
                    workspace.CurrentRunID := None;
                    workspace.AutoApply := false |} ]};
     state.tasks := {| task.table := ∅; task.counter := 0 |};
     state.cache := {[ 4%N := exState state.IdleState ]} |}.

(** The status of the resource at [a] in the state of workspace 2. *)
Definition exStatus (c : gmap resource.ID state.State)
    (a : state.ResourceAddress) : option state.ResourceStatus :=
  match c !! 2%N with
  | Some st => state.Status <$> state.Resources st !! a
  | None => None
  end.

(** A run service for running the definitions: runs are named after their
    workspace, the state counts the attempts, and creation fails for the
    workspaces listed in [failing]. *)
Definition exRunsCreate (failing : list resource.ID) (wid : resource.ID)
    (opts : unit) (attempts : nat)
    : nat * (option string * option error) :=
  if bool_decide (wid ∈ failing)
  then (S attempts, (None, Some ExecutionFailure))
  else (S attempts, (Some ("run-" +:+ pretty wid), None)).

Definition exRunString (r : option string) : string :=
  match r with
  | Some name => name
  | None => "<nil>"
  end.

(** The message for [workspaceIDs] and what is reported for it. *)
Definition exReport (failing workspaceIDs : list resource.ID)
    : option (nat * run.CreatedRunsMsg string
              * (option (run.Navigate string) * string * option error)) :=
  match run.CreateRuns (exRunsCreate failing) exModule tt workspaceIDs with
  | Some cmd =>
      let '(attempts, msg) := cmd 0%nat in
      Some (attempts, msg, run.HandleCreatedRuns exRunString msg)
  | None => None
  end.

(** What the filters of [List] ask of a task: the path, if one is given;
    one of the states, if the slice is not nil; the blocking flag, if
    asked for; and the ancestor. *)
Definition passes (opts : task.ListOptions.t) (t : task.TaskData) : Prop :=
  (∀ p, task.ListOptions.Path opts = Some p → task.Path t = p)
  ∧ (∀ sts, task.ListOptions.Status opts = Some sts → task.State t ∈ sts)
  ∧ (task.ListOptions.Blocking opts = true → task.Blocking t = true)
  ∧ task.HasAncestor t (task.ListOptions.Ancestor opts) = true.

(** Every task of the table is stored under its own ID. *)
Definition keyedTable {W} (s : task.Service W) : Prop :=
  ∀ id (t : task.Task W), task.table s !! id = Some t → task.ID t = id.

(** A call that adds a task to the task service or removes one, and runs
    of such calls on the service and the state of the callbacks'
    owner. *)
Inductive TaskOp (W : Type) : Type :=
  | OpCreate (id : resource.ID) (now : Time) (opts : task.CreateOptions.t W)
  | OpDelete (taskID : resource.ID).
Arguments OpCreate {W}.
Arguments OpDelete {W}.

Definition runOp {W} (op : TaskOp W) (sw : task.Service W * W)
    : task.Service W * W :=
  match op with
  | OpCreate id now opts => (task.Create id now opts sw.1 sw.2).1
  | OpDelete taskID => ((task.Delete taskID sw.1).1, sw.2)
  end.

Definition runOps {W} (ops : list (TaskOp W)) (sw : task.Service W * W)
    : task.Service W * W :=
  foldl (λ sw op, runOp op sw) sw ops.

(** Whether the call, made in [sw], is a [Create] that returns a task. *)
Definition created {W} (op : TaskOp W) (sw : task.Service W * W) : bool :=
  match op with
  | OpCreate id now opts =>
      match (task.Create id now opts sw.1 sw.2).2 with
      | inr _ => true
      | inl _ => false
      end
  | OpDelete _ => false
  end.

(** The number of tasks created in a run of calls. *)
Fixpoint countCreated {W} (ops : list (TaskOp W)) (sw : task.Service W * W)
    : nat :=
  match ops with
  | [] => 0
  | op :: rest =>
      ((if created op sw then 1 else 0) + countCreated rest (runOp op sw))%nat
  end.

(** In every state of the cache, the resources are stored under their
    own addresses. *)
Definition keyedCache (c : gmap resource.ID state.State) : Prop :=
  ∀ workspaceID st, c !! workspaceID = Some st → keyed st.

(** The attempts of a bulk creation: [runsCreate] called for each
    workspace in turn, the state of the run service threaded through;
    the final state and the results in order. *)
Fixpoint attempts {Run RS CreateOptions : Type}
    (runsCreate : resource.ID → CreateOptions → RS
                  → RS * (option Run * option error))
    (opts : CreateOptions) (workspaceIDs : list resource.ID) (rs : RS)
    : RS * list (option Run * option error) :=
  match workspaceIDs with
  | [] => (rs, [])
  | wid :: rest =>
      let '(rs1, r) := runsCreate wid opts rs in
      let '(rs2, results) := attempts runsCreate opts rest rs1 in
      (rs2, r :: results)
  end.

(** Further inputs on which the definitions are run: a run of calls on
    the task service (a creation, a deletion, a creation with an empty
    command); the reload and the removal of [aws.a] on workspace 2, with
    the services they leave and the tasks they create; and no-op stand-ins
    for the task methods that are not among the sources. *)
Definition exCreateOptions (cmd : list string) : task.CreateOptions.t unit :=
  {| task.CreateOptions.Parent := exModule;
     task.CreateOptions.Command := cmd;
     task.CreateOptions.Args := [];
     task.CreateOptions.Path := "mod";
     task.CreateOptions.Env := [];
     task.CreateOptions.Blocking := false;
     task.CreateOptions.AfterCreate := None;
     task.CreateOptions.AfterExited := None;
     task.CreateOptions.AfterError := None;
     task.CreateOptions.AfterCanceled := None;
     task.CreateOptions.AfterFinish := None |}.

Definition exOps : list (TaskOp unit) :=
  [OpCreate 13%N 40 (exCreateOptions ["validate"]%string);
   OpDelete 10%N;
   OpCreate 14%N 41 (exCreateOptions [])].

Definition exUpdateState (st : task.Status) (t : task.Task unit) (w : unit)
    : task.Task unit * unit := (t, w).

Definition exCancel (t : task.Task unit) (w : unit) : task.Task unit * unit :=
  (t, w).

Definition exReloadTask : task.Task (gmap resource.ID state.State) :=
  builtTask 20%N 5
    (finalOptions exWorkspace exWsModule
       (state.reloadOptions exDecode exNewState 2%N)).

Definition exReloaded (s : state.Service) : state.Service :=
  (state.Reload exDecode exNewState 20%N 5 2%N s).1.

Definition exDeleteTask (addrs : list state.ResourceAddress)
    : task.Task (gmap resource.ID state.State) :=
  builtTask 21%N 6
    (finalOptions exWorkspace exWsModule (state.deleteOptions 2%N addrs)).

Definition exDeleted (addrs : list state.ResourceAddress)
    (s : state.Service) : state.Service :=
  (state.Delete 21%N 6 2%N addrs s).1.

(** The table of [TestService_List]: five tasks of one module, one in
    each of the states Pending, Queued, Running, Exited and Errored. *)
Definition exTestTasks : task.Service unit :=
  {| task.table :=
       {[ 31%N := exTask 31%N exModule ["plan"]%string false task.Pending 1;
          32%N := exTask 32%N exModule ["plan"]%string false task.Queued 2;
          33%N := exTask 33%N exModule ["plan"]%string false task.Running 3;
          34%N := exTask 34%N exModule ["plan"]%string false task.Exited 4;
          35%N := exTask 35%N exModule ["plan"]%string false task.Errored 5 ]};
     task.counter := 0 |}.

(** * Properties *)

(** ** Sorting *)

Lemma Time_Compare_le (a b : Time) : Time_Compare a b ≤ 0 ↔ a ≤ b.
Proof.
  unfold Time_Compare.
  destruct (Z.compare_spec a b); split; intros; lia.
Qed.

Lemma Time_Compare_ge (a b : Time) : - Time_Compare a b ≤ 0 ↔ b ≤ a.
Proof.
  unfold Time_Compare.
  destruct (Z.compare_spec a b); split; intros; lia.
Qed.

Lemma mergeSortFunc_spec : SortFuncSpec mergeSortFunc.
Proof.
  split; intros A cmp l.
  - apply merge_sort_Permutation.
  - intros Htrans Htotal. unfold mergeSortFunc.
    by apply Sorted_merge_sort.
Qed.

(** ** The task service *)

Section task_list.
Context {W : Type}.
Implicit Types (opts : task.ListOptions.t) (t : task.Task W).
Implicit Types (tasks : list (task.Task W)) (s : task.Service W).

(** The order by which [List] sorts, read on the time stamps. *)
Lemma byUpdated_le opts t1 t2 :
  cmp_le (task.byUpdated opts) t1 t2 ↔
  if task.ListOptions.Oldest opts
  then task.Updated t1 ≤ task.Updated t2
  else task.Updated t2 ≤ task.Updated t1.
Proof.
  unfold cmp_le, task.byUpdated.
  destruct (task.ListOptions.Oldest opts);
    [apply Time_Compare_le | apply Time_Compare_ge].
Qed.

Lemma byUpdated_transitive opts :
  Transitive (cmp_le (task.byUpdated (W := W) opts)).
Proof.
  intros t1 t2 t3. rewrite !byUpdated_le.
  destruct (task.ListOptions.Oldest opts); lia.
Qed.

Lemma byUpdated_total opts : Total (cmp_le (task.byUpdated (W := W) opts)).
Proof.
  intros t1 t2. rewrite !byUpdated_le.
  destruct (task.ListOptions.Oldest opts); lia.
Qed.

(** The in-place loop computes the sub-list of the kept tasks. *)
Lemma rangeLoop_filter opts tasks0 n j tasks i :
  (n + j = length tasks0)%nat →
  length tasks = length tasks0 →
  (i ≤ j)%nat →
  take i tasks = filter (λ t, task.keep opts t) (take j tasks0) →
  drop j tasks = drop j tasks0 →
  let '(tasks', i') := task.rangeLoop opts n j tasks i in
  take i' tasks' = filter (λ t, task.keep opts t) tasks0.
Proof.
  revert j tasks i.
  induction n as [|n IH]; intros j tasks i Hn Hlen Hij Htake Hdrop; simpl.
  - rewrite Htake. rewrite take_ge by lia. done.
  - assert (Hj : tasks !! j = tasks0 !! j).
    { pose proof (f_equal (λ l, l !! 0%nat) Hdrop) as H0. simpl in H0.
      by rewrite !lookup_drop, !Nat.add_0_r in H0. }
    destruct (lookup_lt_is_Some_2 tasks0 j) as [t Ht]; [lia|].
    rewrite Hj, Ht.
    assert (Hnext : take (S j) tasks0 = take j tasks0 ++ [t])
      by (by apply take_S_r).
    assert (HdropS : ∀ l : list (task.Task W),
               drop (S j) l = drop 1 (drop j l)).
    { intros l. rewrite drop_drop. f_equal. lia. }
    destruct (task.keep opts t) eqn:Hkeep.
    + apply IH.
      * lia.
      * by rewrite length_insert.
      * lia.
      * rewrite Hnext, filter_app, <- Htake.
        rewrite filter_cons_True by (simpl; rewrite Hkeep; exact I).
        rewrite filter_nil.
        erewrite take_S_r; [|apply list_lookup_insert_eq; lia].
        f_equal. apply take_insert_ge. lia.
      * rewrite drop_insert_lt by lia.
        by rewrite !HdropS, Hdrop.
    + apply IH.
      * lia.
      * done.
      * lia.
      * rewrite Hnext, filter_app, <- Htake.
        rewrite filter_cons_False by (simpl; rewrite Hkeep; intros []).
        by rewrite filter_nil, app_nil_r.
      * by rewrite !HdropS, Hdrop.
Qed.

Section sorted.
Variable SortFunc : ∀ A, (A → A → Z) → list A → list A.
Hypothesis SortFunc_ok : SortFuncSpec SortFunc.

(** [List] returns a rearrangement of the kept tasks of the table. *)
Lemma List_Permutation s opts :
  task.List SortFunc s opts ≡ₚ
  filter (λ t, task.keep opts t) (resource.List (task.table s)).
Proof.
  unfold task.List.
  pose proof (rangeLoop_filter opts (resource.List (task.table s))
                (length (resource.List (task.table s))) 0
                (resource.List (task.table s)) 0) as H.
  destruct (task.rangeLoop _ _ _ _ _) as [tasks' i'].
  rewrite (sortFunc_perm _ SortFunc_ok).
  rewrite H; [done | lia | done | lia | done | done].
Qed.

(** Whatever the filters, [List] returns the tasks in the order asked
    for by [Oldest]. *)
Lemma List_sorted s opts :
  StronglySorted
    (λ u1 u2, if task.ListOptions.Oldest opts then u1 ≤ u2 else u2 ≤ u1)
    ((λ t, task.Updated t) <$> task.List SortFunc s opts).
Proof.
  apply StronglySorted_fmap with (R1 := cmp_le (task.byUpdated opts)).
  - intros t1 t2. by rewrite byUpdated_le.
  - apply Sorted_StronglySorted; [apply byUpdated_transitive|].
    unfold task.List.
    destruct (task.rangeLoop _ _ _ _ _) as [tasks' i'].
    apply (sortFunc_sorted _ SortFunc_ok);
      [apply byUpdated_transitive | apply byUpdated_total].
Qed.
End sorted.

(** The command filter has no effect on what the loop keeps. *)
Lemma keep_Command_irrelevant opts cmds t :
  task.keep opts t =
  task.keep
    {| task.ListOptions.Path := task.ListOptions.Path opts;
       task.ListOptions.Status := task.ListOptions.Status opts;
       task.ListOptions.Oldest := task.ListOptions.Oldest opts;
       task.ListOptions.Blocking := task.ListOptions.Blocking opts;
       task.ListOptions.Command := cmds;
       task.ListOptions.Ancestor := task.ListOptions.Ancestor opts |} t.
Proof. reflexivity. Qed.

(** Without path, status and blocking filters the loop keeps exactly
    the tasks that have the ancestor. *)
Lemma keep_ancestor_only opts t :
  task.ListOptions.Path opts = None →
  task.ListOptions.Status opts = None →
  task.ListOptions.Blocking opts = false →
  task.keep opts t = task.HasAncestor t (task.ListOptions.Ancestor opts).
Proof.
  intros HP HS HB. unfold task.keep. rewrite HP, HS, HB. simpl.
  by destruct (task.HasAncestor _ _).
Qed.
End task_list.

Example List_oldest_first :
  task.List mergeSortFunc exTasks (exListOptions None true None 0%N)
  = [exTaskB; exTaskC; exTaskA].
Proof. vm_compute. reflexivity. Qed.

Example List_newest_first_of_module :
  task.List mergeSortFunc exTasks (exListOptions None false None 1%N)
  = [exTaskA; exTaskB].
Proof. vm_compute. reflexivity. Qed.

Example List_finished :
  task.List mergeSortFunc exTasks
    (exListOptions (Some [task.Exited; task.Errored]) true None 0%N)
  = [exTaskB].
Proof. vm_compute. reflexivity. Qed.

Section task_claims.
Context {W : Type}.

(** C1, as amended.  When [Status] is nil (left unset), no path and no
    command filter is given and the blocking filter is off, [List]
    returns the tasks of the table that have the given ancestor, each
    exactly once and no other task; the time stamps of the returned
    tasks are non-decreasing when [Oldest] is true and non-increasing
    when it is false.  The sorting function is any that meets the
    contract of [slices.SortFunc]. *)
Theorem List_unfiltered_all_sorted
    (SortFunc : ∀ A, (A → A → Z) → list A → list A)
    (s : task.Service W) (opts : task.ListOptions.t) :
  SortFuncSpec SortFunc →
  task.ListOptions.Status opts = None →
  task.ListOptions.Path opts = None →
  task.ListOptions.Blocking opts = false →
  task.ListOptions.Command opts = None →
  task.List SortFunc s opts ≡ₚ
    filter (λ t : task.Task W,
              task.HasAncestor t (task.ListOptions.Ancestor opts))
           (resource.List (task.table s))
  ∧ (∀ t : task.Task W,
       t ∈ task.List SortFunc s opts ↔
       (∃ id, task.table s !! id = Some t)
       ∧ task.HasAncestor t (task.ListOptions.Ancestor opts) = true)
  ∧ (task.ListOptions.Oldest opts = true →
     StronglySorted Z.le
       ((λ t : task.Task W, task.Updated t) <$> task.List SortFunc s opts))
  ∧ (task.ListOptions.Oldest opts = false →
     StronglySorted (flip Z.le)
       ((λ t : task.Task W, task.Updated t) <$> task.List SortFunc s opts)).
Proof.
  intros Hsort HS HP HB _.
  assert (Hperm : task.List SortFunc s opts ≡ₚ
    filter (λ t : task.Task W,
              task.HasAncestor t (task.ListOptions.Ancestor opts))
           (resource.List (task.table s))).
  { rewrite (List_Permutation SortFunc Hsort).
    erewrite list_filter_iff; [done|].
    intros t. simpl. by rewrite keep_ancestor_only. }
  split; [exact Hperm|]. split; [|split].
  - intros t. rewrite Hperm, list_elem_of_filter.
    unfold resource.List. rewrite list_elem_of_fmap.
    rewrite Is_true_true. split.
    + intros [Hanc [[id t'] [-> Hin]]].
      apply elem_of_map_to_list in Hin. eauto.
    + intros [[id Hid] Hanc]. split; [done|].
      exists (id, t). split; [done|]. by apply elem_of_map_to_list.
  - intros Hold. pose proof (List_sorted SortFunc Hsort s opts) as H.
    rewrite Hold in H. exact H.
  - intros Hold. pose proof (List_sorted SortFunc Hsort s opts) as H.
    rewrite Hold in H. exact H.
Qed.

(** The result of [List] is the same whatever [opts.Command] is. *)
Lemma List_Command_irrelevant
    (SortFunc : ∀ A, (A → A → Z) → list A → list A)
    (s : task.Service W) (opts : task.ListOptions.t)
    (cmds : option (list (list string))) :
  task.List SortFunc s opts =
  task.List SortFunc s
    {| task.ListOptions.Path := task.ListOptions.Path opts;
       task.ListOptions.Status := task.ListOptions.Status opts;
       task.ListOptions.Oldest := task.ListOptions.Oldest opts;
       task.ListOptions.Blocking := task.ListOptions.Blocking opts;
       task.ListOptions.Command := cmds;
       task.ListOptions.Ancestor := task.ListOptions.Ancestor opts |}.
Proof.
  unfold task.List.
  assert (Hloop : ∀ n j (tasks : list (task.Task W)) i,
    task.rangeLoop opts n j tasks i =
    task.rangeLoop
      {| task.ListOptions.Path := task.ListOptions.Path opts;
         task.ListOptions.Status := task.ListOptions.Status opts;
         task.ListOptions.Oldest := task.ListOptions.Oldest opts;
         task.ListOptions.Blocking := task.ListOptions.Blocking opts;
         task.ListOptions.Command := cmds;
         task.ListOptions.Ancestor := task.ListOptions.Ancestor opts |}
      n j tasks i).
  { induction n as [|n IH]; intros j tasks i; simpl; [done|].
    destruct (tasks !! j) as [t|]; [|done].
    rewrite <- (keep_Command_irrelevant opts cmds t).
    destruct (task.keep opts t); apply IH. }
  rewrite <- Hloop. reflexivity.
Qed.

(** C9.  Deleting a task returns nil whatever the task's state and
    whether or not it is in the table, and leaves the counter of live
    tasks as it is: after any number of deletions [Counter] returns what
    it returned before.  A task that was created and then deleted is
    gone from the table and still counted. *)
Theorem Delete_nil_and_Counter_unchanged
    (s : task.Service W) (taskIDs : list resource.ID) :
  (∀ taskID, (task.Delete taskID s).2 = None)
  ∧ (∀ taskID, task.Counter (task.Delete taskID s).1 = task.Counter s)
  ∧ task.Counter (foldl (λ s taskID, (task.Delete taskID s).1) s taskIDs)
    = task.Counter s
  ∧ (∀ id now opts (w : W),
       match task.Create id now opts s w with
       | (s', _, inr t) =>
           task.Counter s' = wrap_int (task.Counter s + 1)
           ∧ task.Counter (task.Delete (task.ID t) s').1
             = wrap_int (task.Counter s + 1)
           ∧ task.Get (task.ID t) (task.Delete (task.ID t) s').1
             = inl NotFound
       | (_, _, inl _) => True
       end).
Proof.
  split; [done|]. split; [done|]. split.
  - revert s. induction taskIDs as [|taskID rest IH]; intros s; [done|].
    simpl. by rewrite IH.
  - intros id now opts w. unfold task.Create.
    destruct (task.newTask id now opts) as [err|t]; [done|].
    simpl. split; [done|]. split; [done|].
    unfold task.Get, resource.Get, resource.Delete. simpl.
    by rewrite lookup_delete_eq.
Qed.
End task_claims.

(** C1, witness: the three-task table, newest first under module 1. *)
Lemma List_unfiltered_all_sorted_witness :
  SortFuncSpec mergeSortFunc
  ∧ task.ListOptions.Status (exListOptions None false None 1%N) = None
  ∧ task.ListOptions.Path (exListOptions None false None 1%N) = None
  ∧ task.ListOptions.Blocking (exListOptions None false None 1%N) = false
  ∧ task.ListOptions.Command (exListOptions None false None 1%N) = None
  ∧ (task.List mergeSortFunc exTasks (exListOptions None false None 1%N) ≡ₚ
       filter (λ t : task.Task unit, task.HasAncestor t 1%N)
              (resource.List (task.table exTasks))
     ∧ (∀ t : task.Task unit,
          t ∈ task.List mergeSortFunc exTasks
                (exListOptions None false None 1%N) ↔
          (∃ id, task.table exTasks !! id = Some t)
          ∧ task.HasAncestor t 1%N = true)
     ∧ (false = true →
        StronglySorted Z.le
          ((λ t : task.Task unit, task.Updated t)
             <$> task.List mergeSortFunc exTasks
                   (exListOptions None false None 1%N)))
     ∧ (false = false →
        StronglySorted (flip Z.le)
          ((λ t : task.Task unit, task.Updated t)
             <$> task.List mergeSortFunc exTasks
                   (exListOptions None false None 1%N)))).
Proof.
  split; [exact mergeSortFunc_spec|].
  split; [reflexivity|]. split; [reflexivity|]. split; [reflexivity|].
  split; [reflexivity|].
  apply (List_unfiltered_all_sorted mergeSortFunc exTasks
           (exListOptions None false None 1%N));
    [exact mergeSortFunc_spec | reflexivity | reflexivity | reflexivity
    | reflexivity].
Defined.

(** C1, counterexample.  Three calls on the three-task table that ask
    for the tasks under module 1, which are the tasks A and B.  With
    [Status] an empty slice that is not nil, [List] returns no task at
    all.  With [Status] nil and [Blocking] true it leaves out task A,
    which is not blocking.  With [Status] nil and a [Path] other than
    the tasks' it returns no task at all. *)
Lemma List_status_blocking_path_omit_tasks :
  task.table exTasks !! 10%N = Some exTaskA
  ∧ task.HasAncestor exTaskA 1%N = true
  ∧ task.List mergeSortFunc exTasks
      {| task.ListOptions.Path := None;
         task.ListOptions.Status := Some [];
         task.ListOptions.Oldest := true;
         task.ListOptions.Blocking := false;
         task.ListOptions.Command := None;
         task.ListOptions.Ancestor := 1%N |}
    = []
  ∧ task.List mergeSortFunc exTasks
      {| task.ListOptions.Path := None;
         task.ListOptions.Status := None;
         task.ListOptions.Oldest := true;
         task.ListOptions.Blocking := true;
         task.ListOptions.Command := None;
         task.ListOptions.Ancestor := 1%N |}
    = [exTaskB]
  ∧ task.List mergeSortFunc exTasks
      {| task.ListOptions.Path := Some "elsewhere"%string;
         task.ListOptions.Status := None;
         task.ListOptions.Oldest := true;
         task.ListOptions.Blocking := false;
         task.ListOptions.Command := None;
         task.ListOptions.Ancestor := 1%N |}
    = [].
Proof.
  split; [reflexivity|]. split; [reflexivity|].
  split; [vm_compute; reflexivity|].
  split; vm_compute; reflexivity.
Qed.

(** C2, the code at the failing input.  Asked for the tasks whose command
    is [apply], [List] also returns the tasks running [plan] and [init]:
    the command filter excludes nothing. *)
Theorem List_command_filter_excludes_nothing :
  task.Command exTaskA = ["plan"]%string
  ∧ task.Command exTaskC = ["init"]%string
  ∧ task.List mergeSortFunc exTasks
      (exListOptions None true (Some [["apply"]%string]) 0%N)
    = [exTaskB; exTaskC; exTaskA].
Proof.
  split; [reflexivity|]. split; [reflexivity|]. vm_compute. reflexivity.
Qed.

(** ** The state service *)

Section state_lemmas.
Implicit Types (c : state.Cache) (s : state.Service) (st : state.State).
Implicit Types (workspaceID id : resource.ID).

Lemma setCache_cache s : state.setCache (state.cache s) s = s.
Proof. by destruct s. Qed.

(** The guard helper on a missing entry: the mutator is not run and the
    error stays nil. *)
Lemma updateStateStatus_absent workspaceID fn c :
  c !! workspaceID = None →
  state.updateStateStatus workspaceID fn c = (c, None).
Proof.
  intros H. unfold state.updateStateStatus, resource.Update. by rewrite H.
Qed.

Lemma updateStateStatus_present workspaceID fn c st :
  c !! workspaceID = Some st →
  state.updateStateStatus workspaceID fn c
  = (<[workspaceID := (fn st).1]> c, (fn st).2).
Proof.
  intros H. unfold state.updateStateStatus, resource.Update. rewrite H.
  by destruct (fn st) as [st' [e|]].
Qed.

Lemma revertIdle_absent workspaceID c :
  c !! workspaceID = None → state.revertIdle workspaceID c = c.
Proof.
  intros H. unfold state.revertIdle.
  by rewrite updateStateStatus_absent.
Qed.

Lemma revertIdle_present workspaceID c st :
  c !! workspaceID = Some st →
  state.revertIdle workspaceID c
  = <[workspaceID := state.setCacheState state.IdleState st]> c.
Proof.
  intros H. unfold state.revertIdle.
  by rewrite (updateStateStatus_present _ _ _ st).
Qed.

Lemma updateResourceStatus_absent workspaceID status addrs c :
  c !! workspaceID = None →
  state.updateResourceStatus workspaceID status addrs c = c.
Proof.
  intros H. unfold state.updateResourceStatus, resource.Update.
  by rewrite H.
Qed.

Lemma updateResourceStatus_present workspaceID status addrs c st :
  c !! workspaceID = Some st →
  state.updateResourceStatus workspaceID status addrs c
  = <[workspaceID :=
        state.setResources
          ((λ res, if slices_Contains addrs (state.Address res)
                   then state.setStatus status res else res)
             <$> state.Resources st) st]> c.
Proof.
  intros H. unfold state.updateResourceStatus, resource.Update.
  by rewrite H.
Qed.

Lemma newTask_command id now (opts : task.CreateOptions.t state.Cache) :
  task.CreateOptions.Command opts ≠ [] →
  task.newTask id now opts = inr (builtTask id now opts).
Proof.
  intros H. unfold task.newTask, builtTask.
  by destruct (task.CreateOptions.Command opts).
Qed.

(** With the workspace and its module known and a command given,
    [createTask] registers the task, counts it, and runs AfterCreate. *)
Lemma createTask_creates id now workspaceID opts s ws parent mdl :
  state.workspaces s !! workspaceID = Some ws →
  resource.Parent (workspace.Resource ws) = Some parent →
  state.modules s !! resource.rID parent = Some mdl →
  task.CreateOptions.Command opts ≠ [] →
  let t := builtTask id now (finalOptions ws mdl opts) in
  state.createTask id now workspaceID opts s
  = ({| state.modules := state.modules s;
        state.workspaces := state.workspaces s;
        state.tasks :=
          {| task.table := <[id := t]> (task.table (state.tasks s));
             task.counter :=
               wrap_int (task.counter (state.tasks s) + 1) |};
        state.cache :=
          task.invoke (task.CreateOptions.AfterCreate opts) t
            (state.cache s) |},
     inr t).
Proof.
  intros Hws Hparent Hmdl Hcmd t.
  unfold state.createTask, resource.Get, workspace.ModuleID.
  rewrite Hws, Hparent, Hmdl.
  unfold task.Create.
  rewrite newTask_command by done.
  reflexivity.
Qed.

(** What [createTask] returns in general: on an error nothing has
    changed; a task it returns is the one built from the final
    options, and only AfterCreate has touched the cache. *)
Lemma createTask_inv id now workspaceID opts s s' r :
  state.createTask id now workspaceID opts s = (s', r) →
  match r with
  | inl _ => s' = s
  | inr t =>
      ∃ ws mdl,
        t = builtTask id now (finalOptions ws mdl opts)
        ∧ state.cache s'
          = task.invoke (task.CreateOptions.AfterCreate opts) t
              (state.cache s)
        ∧ state.tasks s'
          = {| task.table := <[id := t]> (task.table (state.tasks s));
               task.counter :=
                 wrap_int (task.counter (state.tasks s) + 1) |}
  end.
Proof.
  unfold state.createTask, resource.Get.
  destruct (state.workspaces s !! workspaceID) as [ws|];
    [|by intros [= <- <-]].
  destruct (workspace.ModuleID ws) as [e|moduleID];
    [by intros [= <- <-]|].
  destruct (state.modules s !! moduleID) as [mdl|];
    [|by intros [= <- <-]].
  unfold task.Create.
  fold (finalOptions ws mdl opts).
  unfold task.newTask.
  destruct (task.CreateOptions.Command (finalOptions ws mdl opts)) eqn:Hcmd.
  - intros [= <- <-]. by destruct s.
  - intros [= <- <-]. exists ws, mdl. simpl.
    unfold builtTask. rewrite Hcmd. done.
Qed.
End state_lemmas.

Section reload_claims.
Context {StateFile : Type}.
Variable decode : string → option StateFile.
Variable NewState : resource.ID → StateFile → state.State.
Implicit Types (c : state.Cache) (s : state.Service) (st : state.State).
Implicit Types (workspaceID id : resource.ID).

(** C4.  When the cache entry of the workspace is already Reloading,
    [Reload] returns an error of the InvalidState class and the service
    is what it was: no task has been created or counted, and the cache,
    the entry included, is unchanged. *)
Theorem Reload_rejected_while_reloading id now workspaceID s st :
  state.cache s !! workspaceID = Some st →
  state.CacheState st = state.ReloadingState →
  state.Reload decode NewState id now workspaceID s = (s, inl InvalidState).
Proof.
  intros Hst Hreloading. unfold state.Reload.
  rewrite (updateStateStatus_present _ _ _ st) by done.
  unfold state.startReload. rewrite Hreloading. simpl.
  rewrite insert_id by done.
  by rewrite setCache_cache.
Qed.



Lemma copyStatus_lookup (previous current : state.State)
    (a : state.ResourceAddress) :
  state.Resources (state.copyStatus previous current) !! a
  = match state.Resources current !! a with
    | None => None
    | Some res =>
        Some (match state.Resources previous !! a with
              | Some previousResource =>
                  state.setStatus (state.Status previousResource) res
              | None => res
              end)
    end.
Proof.
  unfold state.copyStatus. simpl. rewrite map_lookup_imap.
  destruct (state.Resources current !! a) as [res|]; simpl; [|done].
  by destruct (state.Resources previous !! a).
Qed.

End reload_claims.

Section reload_outcomes.
Context {StateFile : Type}.
Variable decode : string → option StateFile.
Variable NewState : resource.ID → StateFile → state.State.
Implicit Types (c : state.Cache) (s : state.Service) (st : state.State).
Implicit Types (workspaceID id : resource.ID).

(** With the workspace and its module known, a [Reload] that is not
    stopped by the guard creates the state-pull task; an entry that is
    present is marked Reloading. *)
Lemma Reload_creates id now workspaceID s ws parent mdl :
  state.workspaces s !! workspaceID = Some ws →
  resource.Parent (workspace.Resource ws) = Some parent →
  state.modules s !! resource.rID parent = Some mdl →
  (∀ st, state.cache s !! workspaceID = Some st →
         state.CacheState st = state.IdleState) →
  let t := builtTask id now
             (finalOptions ws mdl
                (state.reloadOptions decode NewState workspaceID)) in
  state.Reload decode NewState id now workspaceID s
  = ({| state.modules := state.modules s;
        state.workspaces := state.workspaces s;
        state.tasks :=
          {| task.table := <[id := t]> (task.table (state.tasks s));
             task.counter :=
               wrap_int (task.counter (state.tasks s) + 1) |};
        state.cache :=
          match state.cache s !! workspaceID with
          | Some st =>
              <[workspaceID :=
                  state.setCacheState state.ReloadingState st]>
                (state.cache s)
          | None => state.cache s
          end |},
     inr t).
Proof.
  intros Hws Hparent Hmdl Hidle t. unfold state.Reload.
  destruct (state.cache s !! workspaceID) as [st|] eqn:Hst.
  - rewrite (updateStateStatus_present _ _ _ st) by done.
    unfold state.startReload. rewrite (Hidle st) by done. simpl.
    erewrite createTask_creates; [reflexivity|done..].
  - rewrite updateStateStatus_absent by done.
    erewrite createTask_creates; [reflexivity|done..].
Qed.

(** C10.  For a workspace without a cache entry, the guard step of
    [Reload] does nothing and yields no error, and [Reload] goes on to
    create the state-pull task (the workspace and its module being
    known to their services): the task is registered and counted, the
    result is the task and not NotFound, and the cache still has no
    entry for the workspace. *)
Theorem Reload_without_cache_entry id now workspaceID s ws parent mdl :
  state.cache s !! workspaceID = None →
  state.workspaces s !! workspaceID = Some ws →
  resource.Parent (workspace.Resource ws) = Some parent →
  state.modules s !! resource.rID parent = Some mdl →
  state.updateStateStatus workspaceID state.startReload (state.cache s)
    = (state.cache s, None)
  ∧ resource.Update workspaceID
      (λ existing (err : option error),
         (existing, (state.startReload existing).2))
      (state.cache s) None
    = (state.cache s, None, inl NotFound)
  ∧ ∃ s' t,
      state.Reload decode NewState id now workspaceID s = (s', inr t)
      ∧ task.Command t = ["state"; "pull"]%string
      ∧ task.State t = task.Pending
      ∧ task.Get id (state.tasks s') = inr t
      ∧ task.Counter (state.tasks s')
        = wrap_int (task.Counter (state.tasks s) + 1)
      ∧ state.cache s' = state.cache s.
Proof.
  intros Hnone Hws Hparent Hmdl.
  split; [by apply updateStateStatus_absent|].
  split; [unfold resource.Update; by rewrite Hnone|].
  eexists _, _. split.
  - eapply Reload_creates; [done..|]. intros st Hst. congruence.
  - simpl. split; [done|]. split; [done|].
    split; [|split; [done|by rewrite Hnone]].
    unfold task.Get, resource.Get. simpl. by rewrite lookup_insert_eq.
Qed.


End reload_outcomes.

Section delete_taint_claims.
Implicit Types (c : state.Cache) (s : state.Service) (st : state.State).
Implicit Types (workspaceID id : resource.ID).
Implicit Types (addrs : list state.ResourceAddress).

Lemma markStatus_lookup status addrs st (a : state.ResourceAddress) :
  keyed st →
  ((λ res, if slices_Contains addrs (state.Address res)
           then state.setStatus status res else res)
     <$> state.Resources st) !! a
  = (λ res, if bool_decide (a ∈ addrs)
            then state.setStatus status res else res)
      <$> state.Resources st !! a.
Proof.
  intros Hkeyed. rewrite lookup_fmap.
  destruct (state.Resources st !! a) as [res|] eqn:Hres; [|done].
  simpl. by rewrite (Hkeyed a res Hres).
Qed.

Lemma markStatus_lookup_address status addrs st
    (a : state.ResourceAddress) :
  ((λ res, if slices_Contains addrs (state.Address res)
           then state.setStatus status res else res)
     <$> state.Resources st) !! a
  = (λ res, if bool_decide (state.Address res ∈ addrs)
            then {| state.Address := state.Address res;
                    state.Attributes := state.Attributes res;
                    state.Status := status |}
            else res)
      <$> state.Resources st !! a.
Proof. by rewrite lookup_fmap. Qed.

Lemma removeResources_lookup addrs st (a : state.ResourceAddress) :
  state.Resources (state.removeResources addrs st) !! a
  = if bool_decide (a ∈ addrs) then None else state.Resources st !! a.
Proof.
  unfold state.removeResources. simpl.
  generalize (state.Resources st) as rs.
  induction addrs as [|addr rest IH]; intros rs; cbn [foldl].
  - by rewrite bool_decide_eq_false_2 by apply not_elem_of_nil.
  - rewrite IH.
    destruct (decide (a ∈ rest)) as [Hin|Hnin].
    + rewrite (bool_decide_eq_true_2 (a ∈ rest)) by done.
      by rewrite bool_decide_eq_true_2 by (by apply list_elem_of_further).
    + rewrite (bool_decide_eq_false_2 (a ∈ rest)) by done.
      destruct (decide (a = addr)) as [->|Hne].
      * rewrite bool_decide_eq_true_2 by apply list_elem_of_here.
        apply lookup_delete_eq.
      * rewrite bool_decide_eq_false_2
          by (by intros [?|?]%elem_of_cons).
        by apply lookup_delete_ne.
Qed.

(** C6.  Let the workspace and its module be known and the cache entry
    of the workspace be present.  A resource is named when its address
    is one of those given.  [Delete] creates a blocking [state rm] task
    for the addresses, and when it returns (the task still Pending, no
    command run) the status of every named resource of the entry is
    Removing and the other resources are as before.  Whatever the entry
    has become when the task ends: if the task exits, the resources
    stored under the given addresses are gone from the entry and the
    others are as they were; if it errors or is canceled, the status of
    every named resource is Idle and the others are as they were. *)
Theorem Delete_marks_removes_or_reverts
    id now workspaceID addrs s st ws parent mdl :
  state.workspaces s !! workspaceID = Some ws →
  resource.Parent (workspace.Resource ws) = Some parent →
  state.modules s !! resource.rID parent = Some mdl →
  state.cache s !! workspaceID = Some st →
  ∃ s' t,
    state.Delete id now workspaceID addrs s = (s', inr t)
    ∧ task.Blocking t = true
    ∧ task.Command t = ["state"; "rm"]%string
    ∧ task.Args t = addrs
    ∧ task.State t = task.Pending
    ∧ (∃ st1,
         state.cache s' !! workspaceID = Some st1
         ∧ ∀ a, state.Resources st1 !! a
                = (λ res, if bool_decide (state.Address res ∈ addrs)
                          then {| state.Address := state.Address res;
                                  state.Attributes := state.Attributes res;
                                  state.Status := state.Removing |}
                          else res)
                    <$> state.Resources st !! a)
    ∧ ∀ now' c st',
        c !! workspaceID = Some st' →
        (∀ out, ∃ st2,
           task.settle now' (task.OutExited out) t c !! workspaceID
             = Some st2
           ∧ ∀ a, state.Resources st2 !! a
                  = if bool_decide (a ∈ addrs) then None
                    else state.Resources st' !! a)
        ∧ (∀ err out, ∃ st2,
             task.settle now' (task.OutErrored err out) t c !! workspaceID
               = Some st2
             ∧ ∀ a, state.Resources st2 !! a
                    = (λ res, if bool_decide (state.Address res ∈ addrs)
                              then {| state.Address := state.Address res;
                                      state.Attributes :=
                                        state.Attributes res;
                                      state.Status := state.Idle |}
                              else res)
                        <$> state.Resources st' !! a)
        ∧ (∀ out, ∃ st2,
             task.settle now' (task.OutCanceled out) t c !! workspaceID
               = Some st2
             ∧ ∀ a, state.Resources st2 !! a
                    = (λ res, if bool_decide (state.Address res ∈ addrs)
                              then {| state.Address := state.Address res;
                                      state.Attributes :=
                                        state.Attributes res;
                                      state.Status := state.Idle |}
                              else res)
                        <$> state.Resources st' !! a).
Proof.
  intros Hws Hparent Hmdl Hst.
  eexists _, _. split.
  { unfold state.Delete. by eapply createTask_creates. }
  simpl. split; [done|]. split; [done|].
  split; [unfold state.ResourceAddress_String; by rewrite list_fmap_id|].
  split; [done|]. split.
  - rewrite (updateResourceStatus_present _ _ _ _ st) by done.
    rewrite lookup_insert_eq. eexists. split; [done|].
    intros a. simpl. apply markStatus_lookup_address.
  - intros now' c st' Hst'.
    unfold task.settle, task.terminalCallbacks. simpl.
    split; [|split].
    + intros out. unfold resource.Update. rewrite Hst'. simpl.
      rewrite lookup_insert_eq. eexists. split; [done|].
      intros a. apply removeResources_lookup.
    + intros err out.
      rewrite (updateResourceStatus_present _ _ _ _ st') by done.
      rewrite lookup_insert_eq. eexists. split; [done|].
      intros a. simpl. apply markStatus_lookup_address.
    + intros out.
      rewrite (updateResourceStatus_present _ _ _ _ st') by done.
      rewrite lookup_insert_eq. eexists. split; [done|].
      intros a. simpl. apply markStatus_lookup_address.
Qed.

(** [Taint] never changes the cache, whether or not it creates its
    task. *)
Lemma Taint_cache_unchanged id now workspaceID addr s :
  state.cache (state.Taint id now workspaceID addr s).1 = state.cache s.
Proof.
  unfold state.Taint.
  destruct (state.createTask _ _ _ _ _) as [s' [e|t]] eqn:Hcreate.
  - by apply createTask_inv in Hcreate as ->.
  - simpl. by apply createTask_inv in Hcreate as (ws & mdl & _ & -> & _).
Qed.

(** C8.  With the workspace and its module known, [Taint] creates and
    registers a blocking task whose command is [taint] and whose only
    argument is the address; the cache is the same after [Taint] as
    before, and the task has no callback: however it ends, whatever
    cache its callbacks are run on is left as it is, resources, their
    statuses and the cache-level status included. *)
Theorem Taint_blocking_task_cache_untouched
    id now workspaceID addr s ws parent mdl :
  state.workspaces s !! workspaceID = Some ws →
  resource.Parent (workspace.Resource ws) = Some parent →
  state.modules s !! resource.rID parent = Some mdl →
  ∃ s' t,
    state.Taint id now workspaceID addr s = (s', inr t)
    ∧ task.Blocking t = true
    ∧ task.Command t = ["taint"]%string
    ∧ task.Args t = [addr]
    ∧ task.Get id (state.tasks s') = inr t
    ∧ state.cache s' = state.cache s
    ∧ ∀ now' o c, task.settle now' o t c = c.
Proof.
  intros Hws Hparent Hmdl.
  eexists _, _. split.
  { unfold state.Taint. by eapply createTask_creates. }
  simpl. split; [done|]. split; [done|]. split; [done|].
  split; [|split; [done|]].
  - unfold task.Get, resource.Get. simpl. by rewrite lookup_insert_eq.
  - intros now' o c. unfold task.settle, task.terminalCallbacks.
    by destruct o.
Qed.
End delete_taint_claims.

Lemma exState_keyed cs : keyed (exState cs).
Proof.
  intros a res. unfold exState. simpl.
  intros [[<- <-]|[_ [<- <-]%lookup_singleton_Some]]%lookup_insert_Some;
    done.
Qed.

(** The reload of workspace 2 run to the end: the task exits with a
    payload listing [aws.a] and [aws.c]. *)
Example Reload_then_exit :
  match state.Reload exDecode exNewState 20%N 5 2%N
          (exService {[ 2%N := exState state.IdleState ]}) with
  | (s', inr t) =>
      state.CacheState <$> state.cache s' !! 2%N = Some state.ReloadingState
      ∧ match task.settle 9 (task.OutExited "aws.a") t (state.cache s') !! 2%N
        with
        | Some merged =>
            state.CacheState merged = state.IdleState
            ∧ state.Resources merged !! "aws.a"%string
              = Some (exResource "aws.a" state.Tainted)
            ∧ state.Resources merged !! "aws.b"%string = None
            ∧ state.Resources merged !! "aws.c"%string
              = Some (exResource "aws.c" state.Idle)
        | None => False
        end
  | (_, inl _) => False
  end.
Proof. vm_compute. repeat split. Qed.

(** A reload whose task cannot be created: workspace 3 has a cache entry
    but is unknown to the workspace service.  The error is returned, no
    task is registered, and the entry, marked Reloading by the guard, is
    Idle again. *)
Example Reload_task_not_created :
  match state.Reload exDecode exNewState 20%N 5 3%N
          (exService {[ 3%N := exState state.IdleState ]}) with
  | (s', r) =>
      r = inl NotFound
      ∧ task.Get 20%N (state.tasks s') = inl NotFound
      ∧ state.CacheState <$> state.cache s' !! 3%N = Some state.IdleState
  end.
Proof. vm_compute. repeat split. Qed.

(** A reload that panics: workspace 4 is known but has no parent, so
    taking its module ID dereferences nil.  [Reload] does not return; no
    task is registered and the entry, marked Reloading by the guard,
    stays Reloading. *)
Example Reload_panics_without_parent :
  match state.Reload exDecode exNewState 20%N 5 4%N exOrphanService with
  | (s', r) =>
      r = inl Panic
      ∧ task.Get 20%N (state.tasks s') = inl NotFound
      ∧ state.CacheState <$> state.cache s' !! 4%N
        = Some state.ReloadingState
  end.
Proof. vm_compute. repeat split. Qed.

(** C4, witness: workspace 2 is already reloading. *)
Lemma Reload_rejected_while_reloading_witness :
  state.cache exReloadingService !! 2%N = Some (exState state.ReloadingState)
  ∧ state.CacheState (exState state.ReloadingState) = state.ReloadingState
  ∧ state.Reload exDecode exNewState 20%N 5 2%N exReloadingService
    = (exReloadingService, inl InvalidState).
Proof.
  split; [reflexivity|]. split; [reflexivity|].
  apply (Reload_rejected_while_reloading exDecode exNewState 20%N 5 2%N
           exReloadingService (exState state.ReloadingState));
    reflexivity.
Defined.

(** C10, witness: workspace 2 has no cache entry. *)
Lemma Reload_without_cache_entry_witness :
  state.cache (exService ∅) !! 2%N = None
  ∧ state.workspaces (exService ∅) !! 2%N = Some exWorkspace
  ∧ resource.Parent (workspace.Resource exWorkspace) = Some exModule
  ∧ state.modules (exService ∅) !! resource.rID exModule = Some exWsModule
  ∧ (state.updateStateStatus 2%N state.startReload (state.cache (exService ∅))
       = (state.cache (exService ∅), None)
     ∧ resource.Update 2%N
         (λ existing (err : option error),
            (existing, (state.startReload existing).2))
         (state.cache (exService ∅)) None
       = (state.cache (exService ∅), None, inl NotFound)
     ∧ ∃ s' t,
         state.Reload exDecode exNewState 20%N 5 2%N (exService ∅)
           = (s', inr t)
         ∧ task.Command t = ["state"; "pull"]%string
         ∧ task.State t = task.Pending
         ∧ task.Get 20%N (state.tasks s') = inr t
         ∧ task.Counter (state.tasks s')
           = wrap_int (task.Counter (state.tasks (exService ∅)) + 1)
         ∧ state.cache s' = state.cache (exService ∅)).
Proof.
  split; [reflexivity|]. split; [reflexivity|]. split; [reflexivity|].
  split; [reflexivity|].
  apply (Reload_without_cache_entry exDecode exNewState 20%N 5 2%N
           (exService ∅) exWorkspace exModule exWsModule);
    reflexivity.
Defined.



(** C6, witness: [aws.a] is removed from the state of workspace 2. *)
Lemma Delete_marks_removes_or_reverts_witness :
  state.workspaces exIdleService !! 2%N = Some exWorkspace
  ∧ resource.Parent (workspace.Resource exWorkspace) = Some exModule
  ∧ state.modules exIdleService !! resource.rID exModule = Some exWsModule
  ∧ state.cache exIdleService !! 2%N = Some (exState state.IdleState)
  ∧ ∃ s' t,
      state.Delete 21%N 6 2%N ["aws.a"%string] exIdleService = (s', inr t)
      ∧ task.Blocking t = true
      ∧ task.Command t = ["state"; "rm"]%string
      ∧ task.Args t = ["aws.a"%string]
      ∧ task.State t = task.Pending
      ∧ (∃ st1,
           state.cache s' !! 2%N = Some st1
           ∧ ∀ a, state.Resources st1 !! a
                  = (λ res,
                       if bool_decide (state.Address res ∈ ["aws.a"%string])
                       then {| state.Address := state.Address res;
                               state.Attributes := state.Attributes res;
                               state.Status := state.Removing |}
                       else res)
                      <$> state.Resources (exState state.IdleState) !! a)
      ∧ ∀ now' (c : gmap resource.ID state.State) st',
          c !! 2%N = Some st' →
          (∀ out, ∃ st2,
             task.settle now' (task.OutExited out) t c !! 2%N = Some st2
             ∧ ∀ a, state.Resources st2 !! a
                    = if bool_decide (a ∈ ["aws.a"%string]) then None
                      else state.Resources st' !! a)
          ∧ (∀ err out, ∃ st2,
               task.settle now' (task.OutErrored err out) t c !! 2%N
                 = Some st2
               ∧ ∀ a, state.Resources st2 !! a
                      = (λ res,
                           if bool_decide
                                (state.Address res ∈ ["aws.a"%string])
                           then {| state.Address := state.Address res;
                                   state.Attributes :=
                                     state.Attributes res;
                                   state.Status := state.Idle |}
                           else res)
                          <$> state.Resources st' !! a)
          ∧ (∀ out, ∃ st2,
               task.settle now' (task.OutCanceled out) t c !! 2%N
                 = Some st2
               ∧ ∀ a, state.Resources st2 !! a
                      = (λ res,
                           if bool_decide
                                (state.Address res ∈ ["aws.a"%string])
                           then {| state.Address := state.Address res;
                                   state.Attributes :=
                                     state.Attributes res;
                                   state.Status := state.Idle |}
                           else res)
                          <$> state.Resources st' !! a).
Proof.
  split; [reflexivity|]. split; [reflexivity|]. split; [reflexivity|].
  split; [reflexivity|].
  apply (Delete_marks_removes_or_reverts 21%N 6 2%N ["aws.a"%string]
           exIdleService (exState state.IdleState) exWorkspace exModule
           exWsModule);
    reflexivity.
Defined.

(** C8, witness: [aws.b] of workspace 2 is tainted. *)
Lemma Taint_blocking_task_cache_untouched_witness :
  state.workspaces exIdleService !! 2%N = Some exWorkspace
  ∧ resource.Parent (workspace.Resource exWorkspace) = Some exModule
  ∧ state.modules exIdleService !! resource.rID exModule = Some exWsModule
  ∧ ∃ s' t,
      state.Taint 22%N 7 2%N "aws.b" exIdleService = (s', inr t)
      ∧ task.Blocking t = true
      ∧ task.Command t = ["taint"]%string
      ∧ task.Args t = ["aws.b"%string]
      ∧ task.Get 22%N (state.tasks s') = inr t
      ∧ state.cache s' = state.cache exIdleService
      ∧ ∀ now' o (c : gmap resource.ID state.State),
          task.settle now' o t c = c.
Proof.
  split; [reflexivity|]. split; [reflexivity|]. split; [reflexivity|].
  apply (Taint_blocking_task_cache_untouched 22%N 7 2%N "aws.b"
           exIdleService exWorkspace exModule exWsModule);
    reflexivity.
Defined.

(** The removal of [aws.a] run on workspace 2: Removing at once, gone
    when the task exits, Idle again when it fails. *)
Example Delete_then_outcomes :
  match state.Delete 21%N 6 2%N ["aws.a"%string] exIdleService with
  | (s', inr t) =>
      exStatus (state.cache s') "aws.a" = Some state.Removing
      ∧ exStatus (state.cache s') "aws.b" = Some state.Idle
      ∧ exStatus (task.settle 9 (task.OutExited "") t (state.cache s'))
          "aws.a" = None
      ∧ exStatus (task.settle 9 (task.OutExited "") t (state.cache s'))
          "aws.b" = Some state.Idle
      ∧ exStatus
          (task.settle 9 (task.OutErrored ExecutionFailure "") t
             (state.cache s')) "aws.a" = Some state.Idle
      ∧ exStatus (task.settle 9 (task.OutCanceled "") t (state.cache s'))
          "aws.a" = Some state.Idle
  | (_, inl _) => False
  end.
Proof. vm_compute. repeat split. Qed.

(** ** Bulk creation of runs *)

Section run_lemmas.
Context {Run RS CreateOptions : Type}.
Variable runsCreate :
  resource.ID → CreateOptions → RS → RS * (option Run * option error).

(** Every workspace is attempted, and every attempt adds an element to
    [Runs], failed or not. *)
Lemma createLoop_Runs_length opts workspaceIDs (msg : run.CreatedRunsMsg Run)
    rs :
  length (run.Runs (run.createLoop runsCreate opts workspaceIDs msg rs).2)
  = (length (run.Runs msg) + length workspaceIDs)%nat.
Proof.
  revert msg rs.
  induction workspaceIDs as [|wid rest IH]; intros msg rs; simpl; [lia|].
  destruct (runsCreate wid opts rs) as [rs' [r [e|]]];
    rewrite IH; simpl; rewrite length_app; simpl; lia.
Qed.

Lemma CreateRuns_Runs_length issuer opts workspaceIDs cmd rs :
  run.CreateRuns runsCreate issuer opts workspaceIDs = Some cmd →
  length (run.Runs (cmd rs).2) = length workspaceIDs.
Proof.
  unfold run.CreateRuns. destruct workspaceIDs as [|wid rest]; [done|].
  intros [= <-]. exact (createLoop_Runs_length opts (wid :: rest) _ rs).
Qed.
End run_lemmas.

(** C7, the code at the failing input.  One workspace, whose run fails
    to be created: the message lists one run, the nil pointer, next to
    the error, and the report is an info text of success, a navigation to
    the page of that nil run, and no error. *)
Theorem CreateRuns_failure_reported_as_success :
  exReport [2%N] [2%N]
  = Some (1%nat,
          {| run.Runs := [None];
             run.CreateErrs := [ExecutionFailure];
             run.Issuer := exModule |},
          (Some (run.GoRun None), "created <nil> successfully"%string, None)).
Proof. vm_compute. reflexivity. Qed.

(** Two of three creations fail: all three are attempted, and the count
    of created runs in the report is three. *)
Example CreateRuns_partial_failure :
  exReport [2%N; 4%N] [2%N; 3%N; 4%N]
  = Some (3%nat,
          {| run.Runs := [None; Some "run-3"%string; None];
             run.CreateErrs := [ExecutionFailure; ExecutionFailure];
             run.Issuer := exModule |},
          (Some (run.GoRunList exModule), ""%string,
           Some (Errorf "created 3 runs; 2 failed to be created; see logs"
                   None))).
Proof. vm_compute. reflexivity. Qed.

(** All creations fail: the report still speaks of created runs. *)
Example CreateRuns_total_failure :
  exReport [2%N; 3%N] [2%N; 3%N]
  = Some (2%nat,
          {| run.Runs := [None; None];
             run.CreateErrs := [ExecutionFailure; ExecutionFailure];
             run.Issuer := exModule |},
          (Some (run.GoRunList exModule), ""%string,
           Some (Errorf "created 2 runs; 2 failed to be created; see logs"
                   None))).
Proof. vm_compute. reflexivity. Qed.

(** All creations succeed: one summary of success. *)
Example CreateRuns_all_created :
  exReport [] [2%N; 3%N]
  = Some (2%nat,
          {| run.Runs := [Some "run-2"%string; Some "run-3"%string];
             run.CreateErrs := [];
             run.Issuer := exModule |},
          (Some (run.GoRunList exModule),
           "created 2 runs successfully"%string, None)).
Proof. vm_compute. reflexivity. Qed.


(** * Further properties *)

(** ** The task service *)

Lemma wrap_int_small (z : Z) : - 2 ^ 63 ≤ z < 2 ^ 63 → wrap_int z = z.
Proof. intros H. unfold wrap_int. rewrite Z.mod_small; lia. Qed.

Section task_more.
Context {W : Type}.
Implicit Types (opts : task.ListOptions.t) (s : task.Service W).

Lemma keep_passes opts (t : task.TaskData) :
  task.keep opts t = true ↔ passes opts t.
Proof.
  unfold task.keep, passes.
  destruct (task.ListOptions.Path opts) as [p|];
    [destruct (String.eqb_spec p (task.Path t)) as [Hp|Hp]|]; simpl.
  2: { split; [done|]. intros [HP _]. by specialize (HP p eq_refl). }
  all: destruct (task.ListOptions.Status opts) as [sts|];
    [unfold slices_Contains;
     destruct (decide (task.State t ∈ sts)) as [Hin|Hnin];
     [rewrite bool_decide_eq_true_2 by done
     |rewrite bool_decide_eq_false_2 by done]|]; simpl.
  all: try (split; [done|]; intros (_ & HS & _);
            by specialize (HS sts eq_refl)).
  all: destruct (task.ListOptions.Blocking opts), (task.Blocking t); simpl.
  all: try (split; [done|]; intros (_ & _ & HB & _);
            by specialize (HB eq_refl)).
  all: destruct (task.HasAncestor t (task.ListOptions.Ancestor opts)); simpl.
  all: try (split; [done|]; by intros (_ & _ & _ & ?)).
  all: split; [intros _|done].
  all: repeat split; try done; try congruence.
Qed.

(** X1.  For any options, [List] returns the tasks of the table that
    pass the path, status, blocking and ancestor filters, and no other;
    it never returns more tasks than the table holds; and whatever the
    filters, the result is ordered by time stamp as [Oldest] asks. *)
Theorem List_filters_and_sorts
    (SortFunc : ∀ A, (A → A → Z) → list A → list A) s opts :
  SortFuncSpec SortFunc →
  (∀ t : task.Task W,
     t ∈ task.List SortFunc s opts ↔
     (∃ id, task.table s !! id = Some t) ∧ passes opts t)
  ∧ (length (task.List SortFunc s opts) ≤ size (task.table s))%nat
  ∧ StronglySorted
      (λ u1 u2, if task.ListOptions.Oldest opts then u1 ≤ u2 else u2 ≤ u1)
      ((λ t : task.Task W, task.Updated t) <$> task.List SortFunc s opts).
Proof.
  intros Hsort. split; [|split].
  - intros t. rewrite (List_Permutation SortFunc Hsort).
    rewrite list_elem_of_filter. unfold resource.List.
    rewrite list_elem_of_fmap, Is_true_true, keep_passes. split.
    + intros [Hp [[id t'] [-> Hin]]].
      apply elem_of_map_to_list in Hin. eauto.
    + intros [[id Hid] Hp]. split; [done|].
      exists (id, t). split; [done|]. by apply elem_of_map_to_list.
  - rewrite (List_Permutation SortFunc Hsort).
    etransitivity; [apply length_filter|].
    unfold resource.List. by rewrite length_fmap, length_map_to_list.
  - by apply List_sorted.
Qed.

(** X2.  A status slice that is empty but not nil matches no task: with
    it [List] returns nothing, whatever the table and the other
    options. *)
Theorem List_empty_status_slice
    (SortFunc : ∀ A, (A → A → Z) → list A → list A) s opts :
  SortFuncSpec SortFunc →
  task.ListOptions.Status opts = Some [] →
  task.List SortFunc s opts = [].
Proof.
  intros Hsort Hstatus. apply elem_of_nil_inv. intros t Hin.
  rewrite (List_Permutation SortFunc Hsort) in Hin.
  apply list_elem_of_filter in Hin as [Hkeep _].
  apply Is_true_true, keep_passes in Hkeep.
  destruct Hkeep as (_ & HS & _).
  specialize (HS [] Hstatus). by apply not_elem_of_nil in HS.
Qed.
End task_more.

Section task_lifecycle.
Context {W : Type}.
Implicit Types (s : task.Service W) (w : W) (sw : task.Service W * W).
Implicit Types (ops : list (TaskOp W)).

(** X3.  [Create] does all or nothing.  When it returns a task, the
    command is not empty, the task is Pending, carries the given ID and
    the options' command, arguments, blocking flag and parent, is what
    [Get] returns for its ID while every other ID reads as before, the
    counter has advanced by one and AfterCreate has run once, on that
    task.  When it returns an error, the command is empty, the error is a
    validation error, and neither the service nor the owner's state has
    changed. *)
Theorem Create_all_or_nothing id now (opts : task.CreateOptions.t W) s w :
  match task.Create id now opts s w with
  | (s', w', inr t) =>
      task.CreateOptions.Command opts ≠ []
      ∧ task.ID t = id
      ∧ task.State t = task.Pending
      ∧ task.Command t = task.CreateOptions.Command opts
      ∧ task.Args t = task.CreateOptions.Args opts
      ∧ task.Blocking t = task.CreateOptions.Blocking opts
      ∧ resource.Parent (task.Resource t)
        = Some (task.CreateOptions.Parent opts)
      ∧ task.Get id s' = inr t
      ∧ (∀ id', id' ≠ id → task.Get id' s' = task.Get id' s)
      ∧ task.Counter s' = wrap_int (task.Counter s + 1)
      ∧ w' = task.invoke (task.CreateOptions.AfterCreate opts) t w
  | (s', w', inl e) =>
      task.CreateOptions.Command opts = []
      ∧ e = ValidationError ∧ s' = s ∧ w' = w
  end.
Proof.
  unfold task.Create, task.newTask.
  destruct (task.CreateOptions.Command opts) as [|c cmd] eqn:Hcmd; [done|].
  simpl. repeat split; try done.
  - unfold task.Get, resource.Get, resource.Add. simpl.
    by rewrite lookup_insert_eq.
  - intros id' Hne. unfold task.Get, resource.Get, resource.Add. simpl.
    by rewrite lookup_insert_ne.
Qed.

Lemma runOp_Counter (op : TaskOp W) sw :
  task.Counter (runOp op sw).1
  = if created op sw then wrap_int (task.Counter sw.1 + 1)
    else task.Counter sw.1.
Proof.
  destruct op as [id now opts|taskID]; [|done]. unfold runOp, created.
  pose proof (Create_all_or_nothing id now opts sw.1 sw.2) as H.
  destruct (task.Create id now opts sw.1 sw.2) as [[s' w'] [e|t]]; simpl.
  - by destruct H as (_ & _ & -> & _).
  - by destruct H as (_ & _ & _ & _ & _ & _ & _ & _ & _ & -> & _).
Qed.

Lemma countCreated_le ops sw : (countCreated ops sw ≤ length ops)%nat.
Proof.
  revert sw. induction ops as [|op rest IH]; intros sw; simpl; [lia|].
  specialize (IH (runOp op sw)). destruct (created op sw); lia.
Qed.

(** X4.  The counter counts creations and nothing else: after any run
    of [Create] and [Delete] calls it has grown by the number of tasks
    that were created, however many of them were deleted (as long as the
    count stays in the range of Go's [int]). *)
Theorem Counter_counts_created ops sw :
  0 ≤ task.Counter sw.1 →
  task.Counter sw.1 + Z.of_nat (length ops) < 2 ^ 63 →
  task.Counter (runOps ops sw).1
  = task.Counter sw.1 + Z.of_nat (countCreated ops sw).
Proof.
  revert sw. induction ops as [|op rest IH]; intros sw Hpos Hbound.
  - simpl. lia.
  - simpl in Hbound. unfold runOps in *. simpl.
    pose proof (runOp_Counter op sw) as Hop.
    pose proof (countCreated_le rest (runOp op sw)) as Hle.
    rewrite IH.
    + rewrite Hop. destruct (created op sw).
      * rewrite wrap_int_small by lia. lia.
      * lia.
    + rewrite Hop. destruct (created op sw);
        [rewrite wrap_int_small by lia|]; lia.
    + rewrite Hop. destruct (created op sw);
        [rewrite wrap_int_small by lia|]; lia.
Qed.

Lemma newTask_ID id now (opts : task.CreateOptions.t W) (t : task.Task W) :
  task.newTask id now opts = inr t → task.ID t = id.
Proof.
  unfold task.newTask.
  destruct (task.CreateOptions.Command opts); [done|]. by intros [= <-].
Qed.

Lemma runOp_invariants (op : TaskOp W) sw :
  keyedTable sw.1 →
  Z.of_nat (size (task.table sw.1)) ≤ task.Counter sw.1 →
  task.Counter sw.1 + 1 < 2 ^ 63 →
  keyedTable (runOp op sw).1
  ∧ Z.of_nat (size (task.table (runOp op sw).1))
    ≤ task.Counter (runOp op sw).1.
Proof.
  intros Hkeyed Hsize Hbound. unfold task.Counter in *.
  destruct op as [id now opts|taskID]; unfold runOp.
  - unfold task.Create.
    destruct (task.newTask id now opts) as [e|t0] eqn:Hnew; [done|].
    apply newTask_ID in Hnew. rewrite Hnew.
    unfold resource.Add, keyedTable. simpl. split.
    + intros id' t.
      intros [[<- <-]|[_ Hother]]%lookup_insert_Some; [done|].
      by apply Hkeyed.
    + rewrite wrap_int_small by lia.
      pose proof (map_size_insert id t0 (task.table sw.1)) as Hins.
      destruct (task.table sw.1 !! id); simpl in Hins; lia.
  - unfold keyedTable. simpl. unfold resource.Delete. split.
    + intros id' t [_ Hother]%lookup_delete_Some. by apply Hkeyed.
    + pose proof (map_size_delete taskID (task.table sw.1)) as Hdel.
      destruct (task.table sw.1 !! taskID); simpl in Hdel; lia.
Qed.

(** X5.  From a new service, after any run of [Create] and [Delete]
    calls, every task of the table is stored under its own ID and the
    counter is at least the number of tasks in the table. *)
Theorem NewService_invariants (progOpts : task.ServiceOptions.t) ops w :
  Z.of_nat (length ops) < 2 ^ 63 →
  keyedTable (runOps ops (task.NewService progOpts, w)).1
  ∧ Z.of_nat (size (task.table (runOps ops (task.NewService progOpts, w)).1))
    ≤ task.Counter (runOps ops (task.NewService progOpts, w)).1.
Proof.
  intros Hlen.
  assert (Hgen : ∀ ops sw,
    keyedTable sw.1 →
    Z.of_nat (size (task.table sw.1)) ≤ task.Counter sw.1 →
    task.Counter sw.1 + Z.of_nat (length ops) < 2 ^ 63 →
    keyedTable (runOps ops sw).1
    ∧ Z.of_nat (size (task.table (runOps ops sw).1))
      ≤ task.Counter (runOps ops sw).1).
  { clear. intros ops.
    induction ops as [|op rest IH]; intros sw Hkeyed Hsize Hbound; [done|].
    simpl in Hbound. unfold runOps in *. simpl.
    destruct (runOp_invariants op sw) as [Hkeyed' Hsize']; [done|done|lia|].
    apply IH; [done|done|].
    rewrite runOp_Counter. destruct (created op sw);
      [rewrite wrap_int_small by lia|]; lia. }
  apply Hgen; simpl.
  - intros id t. unfold task.NewService. simpl. by rewrite lookup_empty.
  - by rewrite map_size_empty.
  - lia.
Qed.

(** X6.  [Delete] removes the one task and nothing else: afterwards [Get]
    fails with NotFound for the ID and returns what it returned before
    for every other ID; deleting again changes nothing, and deleting an
    ID that is not in the table leaves the service as it is. *)
Theorem Delete_removes_only_that_task taskID s :
  (∀ id', task.Get id' (task.Delete taskID s).1
          = if decide (id' = taskID) then inl NotFound
            else task.Get id' s)
  ∧ (task.Delete taskID (task.Delete taskID s).1).1 = (task.Delete taskID s).1
  ∧ (task.table s !! taskID = None → (task.Delete taskID s).1 = s).
Proof.
  unfold task.Delete, task.Get, resource.Get, resource.Delete. simpl.
  split; [|split].
  - intros id'. destruct (decide (id' = taskID)) as [->|Hne].
    + by rewrite lookup_delete_eq.
    + by rewrite lookup_delete_ne.
  - f_equal. apply delete_delete_eq.
  - intros Hnone. destruct s as [tbl c]. simpl in *. f_equal.
    by apply delete_id.
Qed.

Section enqueue_cancel.
Variable updateState : task.Status → task.Task W → W → task.Task W * W.
Variable cancel : task.Task W → W → task.Task W * W.

(** X7.  For an ID that is not in the table, [Enqueue] returns the
    table's NotFound wrapped in [enqueuing task:] and [Cancel] returns it
    as it is; neither touches a task, the service or the owner's
    state. *)
Theorem Enqueue_Cancel_unknown_task taskID s w :
  task.table s !! taskID = None →
  task.Enqueue updateState taskID s w
  = (s, w, inl (Errorf "enqueuing task: " (Some NotFound)))
  ∧ task.Cancel cancel taskID s w = (s, w, inl NotFound).
Proof.
  intros Hnone. unfold task.Enqueue, task.Cancel, resource.Get.
  by rewrite Hnone.
Qed.

End enqueue_cancel.

(** X9.  A task that has just been created is found by [List]: it is
    returned for every options whose filters it passes (for the zero
    options always), and whatever else [List] returns was returned
    before the creation. *)
Theorem created_task_is_listed
    (SortFunc : ∀ A, (A → A → Z) → list A → list A)
    id now (opts : task.CreateOptions.t W) s w :
  SortFuncSpec SortFunc →
  task.CreateOptions.Command opts ≠ [] →
  ∃ s' w' t,
    task.Create id now opts s w = (s', w', inr t)
    ∧ (∀ lopts, passes lopts t → t ∈ task.List SortFunc s' lopts)
    ∧ t ∈ task.List SortFunc s'
            {| task.ListOptions.Path := None;
               task.ListOptions.Status := None;
               task.ListOptions.Oldest := false;
               task.ListOptions.Blocking := false;
               task.ListOptions.Command := None;
               task.ListOptions.Ancestor := resource.GlobalID |}
    ∧ (∀ lopts t', t' ∈ task.List SortFunc s' lopts →
                   t' = t ∨ t' ∈ task.List SortFunc s lopts).
Proof.
  intros Hsort Hcmd.
  pose proof (Create_all_or_nothing id now opts s w) as H.
  destruct (task.Create id now opts s w) as [[s' w'] [e|t]];
    [by destruct H|].
  destruct H as (_ & _ & _ & _ & _ & _ & _ & Hget & Hother & _).
  assert (Hid : task.table s' !! id = Some t).
  { revert Hget. unfold task.Get, resource.Get.
    destruct (task.table s' !! id); by intros [= ->]. }
  assert (Hlisted : ∀ lopts, passes lopts t →
                             t ∈ task.List SortFunc s' lopts).
  { intros lopts Hp.
    apply (List_filters_and_sorts SortFunc s' lopts Hsort). eauto. }
  exists s', w', t. split; [done|]. split; [done|]. split.
  - apply Hlisted. repeat split; try done.
    unfold task.HasAncestor. by destruct (task.Resource t).
  - intros lopts t' Hin.
    apply (List_filters_and_sorts SortFunc s' lopts Hsort) in Hin
      as [[id' Hid'] Hp].
    destruct (decide (id' = id)) as [->|Hne].
    + left. congruence.
    + right. apply (List_filters_and_sorts SortFunc s lopts Hsort).
      split; [|done]. exists id'.
      specialize (Hother id' Hne). revert Hother.
      unfold task.Get, resource.Get. rewrite Hid'.
      destruct (task.table s !! id'); by intros [= ->].
Qed.
End task_lifecycle.

(** ** The state service *)

Section state_more.
Implicit Types (c : state.Cache) (s : state.Service) (st : state.State).
Implicit Types (workspaceID other id : resource.ID).
Implicit Types (addrs : list state.ResourceAddress).

Lemma setCacheState_Idle_id st :
  state.CacheState st = state.IdleState →
  state.setCacheState state.IdleState st = st.
Proof. destruct st as [w rs cs]. simpl. by intros ->. Qed.

Lemma revertIdle_lookup_ne workspaceID other c :
  other ≠ workspaceID →
  state.revertIdle workspaceID c !! other = c !! other.
Proof.
  intros Hne. destruct (c !! workspaceID) as [st|] eqn:Hst.
  - rewrite (revertIdle_present _ _ st) by done. by rewrite lookup_insert_ne.
  - by rewrite revertIdle_absent.
Qed.

Lemma updateResourceStatus_lookup_ne workspaceID other status addrs c :
  other ≠ workspaceID →
  state.updateResourceStatus workspaceID status addrs c !! other = c !! other.
Proof.
  intros Hne. destruct (c !! workspaceID) as [st|] eqn:Hst.
  - rewrite (updateResourceStatus_present _ _ _ _ st) by done.
    by rewrite lookup_insert_ne.
  - by rewrite updateResourceStatus_absent.
Qed.

(** [createTask] leaves the module and workspace services alone. *)
Lemma createTask_directories id now workspaceID opts s :
  state.modules (state.createTask id now workspaceID opts s).1
  = state.modules s
  ∧ state.workspaces (state.createTask id now workspaceID opts s).1
    = state.workspaces s.
Proof.
  unfold state.createTask.
  destruct (resource.Get workspaceID (state.workspaces s)) as [e|ws];
    [done|].
  destruct (workspace.ModuleID ws) as [e|moduleID]; [done|].
  destruct (resource.Get moduleID (state.modules s)) as [e|mdl]; [done|].
  by destruct (task.Create _ _ _ _ _) as [[ts c] r].
Qed.

(** With a command given, [createTask] fails only for want of the
    workspace, its parent or its module, and then changes nothing. *)
Lemma createTask_error id now workspaceID opts s :
  task.CreateOptions.Command opts ≠ [] →
  match state.createTask id now workspaceID opts s with
  | (s', inl e) => s' = s ∧ (e = NotFound ∨ e = Panic)
  | (_, inr _) => True
  end.
Proof.
  intros Hcmd.
  unfold state.createTask, resource.Get, workspace.ModuleID.
  destruct (state.workspaces s !! workspaceID) as [ws|]; [|by eauto].
  destruct (resource.Parent (workspace.Resource ws)) as [parent|];
    [|by eauto].
  destruct (state.modules s !! resource.rID parent) as [mdl|]; [|by eauto].
  unfold task.Create. fold (finalOptions ws mdl opts).
  by rewrite newTask_command.
Qed.

(** What [Delete] returns with a task: the task built from its options,
    and a cache in which the named resources have been marked. *)
Lemma Delete_inv id now workspaceID addrs s s' (t : task.Task state.Cache) :
  state.Delete id now workspaceID addrs s = (s', inr t) →
  ∃ ws mdl,
    t = builtTask id now
          (finalOptions ws mdl (state.deleteOptions workspaceID addrs))
    ∧ state.cache s'
      = state.updateResourceStatus workspaceID state.Removing addrs
          (state.cache s)
    ∧ state.modules s' = state.modules s
    ∧ state.workspaces s' = state.workspaces s.
Proof.
  unfold state.Delete, state.createTask, resource.Get.
  destruct (state.workspaces s !! workspaceID) as [ws|]; [|done].
  destruct (workspace.ModuleID ws) as [e|moduleID]; [done|].
  destruct (state.modules s !! moduleID) as [mdl|]; [|done].
  unfold task.Create. fold (finalOptions ws mdl
    (state.deleteOptions workspaceID addrs)).
  rewrite newTask_command by done.
  intros [= <- <-]. by exists ws, mdl.
Qed.

(** The cache after the callbacks of a finished [Delete] task. *)
Lemma settle_delete now o ws mdl id now0 workspaceID addrs c :
  task.settle now o
    (builtTask id now0
       (finalOptions ws mdl (state.deleteOptions workspaceID addrs))) c
  = match o with
    | task.OutExited _ =>
        match c !! workspaceID with
        | Some st => <[workspaceID := state.removeResources addrs st]> c
        | None => c
        end
    | _ => state.updateResourceStatus workspaceID state.Idle addrs c
    end.
Proof.
  unfold task.settle, task.terminalCallbacks.
  destruct o as [out|err out|out]; simpl; [|done|done].
  unfold resource.Update. by destruct (c !! workspaceID).
Qed.

(** X10.  When [Delete] or [Taint] returns an error, nothing has
    happened: the service (tasks, counter and cache) is what it was, and
    no resource has been marked.  The error is NotFound when the
    workspace or its module is unknown. *)
Theorem Delete_Taint_error_changes_nothing
    id now workspaceID addrs addr s :
  match state.Delete id now workspaceID addrs s with
  | (s', inl e) => s' = s ∧ (e = NotFound ∨ e = Panic)
  | (_, inr _) => is_Some (state.workspaces s !! workspaceID)
  end
  ∧ match state.Taint id now workspaceID addr s with
    | (s', inl e) => s' = s ∧ (e = NotFound ∨ e = Panic)
    | (_, inr _) => is_Some (state.workspaces s !! workspaceID)
    end
  ∧ (state.workspaces s !! workspaceID = None →
     state.Delete id now workspaceID addrs s = (s, inl NotFound)
     ∧ state.Taint id now workspaceID addr s = (s, inl NotFound)).
Proof.
  unfold state.Delete, state.Taint, state.createTask, resource.Get,
    workspace.ModuleID.
  destruct (state.workspaces s !! workspaceID) as [ws|]; [|naive_solver].
  destruct (resource.Parent (workspace.Resource ws)) as [parent|];
    [|naive_solver].
  destruct (state.modules s !! resource.rID parent) as [mdl|]; [|naive_solver].
  unfold task.Create.
  fold (finalOptions ws mdl (state.deleteOptions workspaceID addrs)).
  fold (finalOptions ws mdl (state.taintOptions addr)).
  rewrite !newTask_command by done. naive_solver.
Qed.
End state_more.

Section reload_more.
Context {StateFile : Type}.
Variable decode : string → option StateFile.
Variable NewState : resource.ID → StateFile → state.State.
Implicit Types (c : state.Cache) (s : state.Service) (st : state.State).
Implicit Types (workspaceID other id : resource.ID).

(** What [Reload] returns with a task. *)
Lemma Reload_inv id now workspaceID s s' (t : task.Task state.Cache) :
  state.Reload decode NewState id now workspaceID s = (s', inr t) →
  ∃ ws mdl,
    t = builtTask id now
          (finalOptions ws mdl
             (state.reloadOptions decode NewState workspaceID))
    ∧ state.cache s'
      = match state.cache s !! workspaceID with
        | Some st =>
            <[workspaceID := state.setCacheState state.ReloadingState st]>
              (state.cache s)
        | None => state.cache s
        end
    ∧ (∀ st, state.cache s !! workspaceID = Some st →
             state.CacheState st = state.IdleState)
    ∧ state.modules s' = state.modules s
    ∧ state.workspaces s' = state.workspaces s.
Proof.
  unfold state.Reload.
  destruct (state.updateStateStatus _ _ _) as [c [e|]] eqn:Hguard; [done|].
  destruct (state.createTask _ _ _ _ _) as [s1 [e|t1]] eqn:Hcreate;
    [by destruct e|].
  intros [= <- <-].
  pose proof (createTask_directories id now workspaceID
    (state.reloadOptions decode NewState workspaceID) (state.setCache c s))
    as [Hm Hw].
  rewrite Hcreate in Hm, Hw. simpl in Hm, Hw.
  apply createTask_inv in Hcreate as (ws & mdl & -> & Hcache & _).
  exists ws, mdl. split; [done|]. simpl in Hcache. rewrite Hcache.
  split; [|split; [|done]].
  - destruct (state.cache s !! workspaceID) as [st|] eqn:Hst.
    + rewrite (updateStateStatus_present _ _ _ st) in Hguard by done.
      revert Hguard. unfold state.startReload.
      by destruct (state.CacheState st); intros [= <-].
    + rewrite updateStateStatus_absent in Hguard by done.
      by injection Hguard as <-.
  - intros st Hst.
    rewrite (updateStateStatus_present _ _ _ st) in Hguard by done.
    revert Hguard. unfold state.startReload.
    by destruct (state.CacheState st).
Qed.

(** The cache after the callbacks of a finished [Reload] task: only an
    exit with a payload that decodes replaces the entry; in every case an
    entry that is present ends Idle. *)
Lemma settle_reload now o ws mdl id now0 workspaceID c :
  task.settle now o
    (builtTask id now0
       (finalOptions ws mdl
          (state.reloadOptions decode NewState workspaceID))) c
  = match match o with
          | task.OutExited out => decode out
          | _ => None
          end with
    | Some file =>
        <[workspaceID :=
            state.setCacheState state.IdleState
              (match c !! workspaceID with
               | Some previous =>
                   state.copyStatus previous (NewState workspaceID file)
               | None => NewState workspaceID file
               end)]> c
    | None =>
        match c !! workspaceID with
        | Some st =>
            <[workspaceID := state.setCacheState state.IdleState st]> c
        | None => c
        end
    end.
Proof.
  assert (Hrevert : ∀ c, state.revertIdle workspaceID c
    = match c !! workspaceID with
      | Some st =>
          <[workspaceID := state.setCacheState state.IdleState st]> c
      | None => c
      end).
  { intros c0. destruct (c0 !! workspaceID) as [st|] eqn:Hst.
    - by apply revertIdle_present.
    - by apply revertIdle_absent. }
  unfold task.settle, task.terminalCallbacks.
  destruct o as [out|err out|out]; simpl; [|apply Hrevert|apply Hrevert].
  unfold state.reloadAfterExited. simpl.
  destruct (decode out) as [file|]; [|apply Hrevert].
  rewrite Hrevert. unfold resource.Update, resource.Add.
  destruct (c !! workspaceID) as [previous|] eqn:Hprev; simpl.
  - rewrite lookup_insert_eq. by rewrite !insert_insert_eq.
  - rewrite lookup_insert_eq. by rewrite insert_insert_eq.
Qed.

(** X11.  A [Reload] that returns an error is a no-op: whether it was
    stopped by the guard or could not create its task, the service
    (tasks, counter, cache and the entry's status) is what it was, and
    the error is InvalidState or NotFound.  (A panic is no return of
    [Reload]; nothing is said about it.) *)
Theorem Reload_error_changes_nothing id now workspaceID s :
  match state.Reload decode NewState id now workspaceID s with
  | (s', inl e) => e ≠ Panic → s' = s ∧ (e = InvalidState ∨ e = NotFound)
  | (_, inr _) => True
  end.
Proof.
  unfold state.Reload.
  assert (Herr : ∀ c,
    match state.createTask id now workspaceID
            (state.reloadOptions decode NewState workspaceID)
            (state.setCache c s) with
    | (s1, inl e) => s1 = state.setCache c s ∧ (e = NotFound ∨ e = Panic)
    | (_, inr _) => True
    end).
  { intros c. by apply createTask_error. }
  destruct (state.cache s !! workspaceID) as [st|] eqn:Hst.
  - rewrite (updateStateStatus_present _ _ _ st) by done.
    unfold state.startReload.
    destruct (state.CacheState st) eqn:Hcs; simpl.
    + specialize (Herr (<[workspaceID :=
        state.setCacheState state.ReloadingState st]> (state.cache s))).
      destruct (state.createTask _ _ _ _ _) as [s1 [e|t1]]; [|done].
      destruct Herr as [-> [->| ->]]; [|done].
      intros _. split; [|by right].
      destruct s as [ms wss ts c0]. unfold state.setCache. simpl in *.
      f_equal.
      erewrite revertIdle_present by apply lookup_insert_eq.
      rewrite insert_insert_eq.
      change (state.setCacheState state.IdleState
                (state.setCacheState state.ReloadingState st))
        with (state.setCacheState state.IdleState st).
      rewrite setCacheState_Idle_id by done.
      by apply insert_id.
    + rewrite insert_id by done. rewrite setCache_cache. by eauto.
  - rewrite updateStateStatus_absent by done.
    specialize (Herr (state.cache s)).
    destruct (state.createTask _ _ _ _ _) as [s1 [e|t1]]; [|done].
    destruct Herr as [-> [->| ->]]; [|done].
    intros _. split; [|by right].
    rewrite setCache_cache. simpl.
    rewrite revertIdle_absent by done. apply setCache_cache.
Qed.
End reload_more.

Section reload_outcomes_more.
Context {StateFile : Type}.
Variable decode : string → option StateFile.
Variable NewState : resource.ID → StateFile → state.State.
Implicit Types (c : state.Cache) (s : state.Service) (st : state.State).
Implicit Types (workspaceID other id : resource.ID).

(** X12.  [Reload] and the callbacks of its task touch one entry of the
    cache only: the entries of other workspaces are the same after
    [Reload] returns and after the task has ended in any way, and the
    module and workspace services are not changed. *)
Theorem Reload_touches_only_its_workspace
    id now workspaceID other s s' (t : task.Task state.Cache) :
  state.Reload decode NewState id now workspaceID s = (s', inr t) →
  other ≠ workspaceID →
  state.cache s' !! other = state.cache s !! other
  ∧ state.modules s' = state.modules s
  ∧ state.workspaces s' = state.workspaces s
  ∧ ∀ now' o c, task.settle now' o t c !! other = c !! other.
Proof.
  intros (ws & mdl & -> & Hcache & _ & Hm & Hw)%Reload_inv Hne.
  split; [|split; [done|split; [done|]]].
  - rewrite Hcache. destruct (state.cache s !! workspaceID); [|done].
    by rewrite lookup_insert_ne.
  - intros now' o c. rewrite settle_reload.
    destruct (match o with task.OutExited out => decode out | _ => None end);
      [by rewrite lookup_insert_ne|].
    destruct (c !! workspaceID); [|done]. by rewrite lookup_insert_ne.
Qed.

(** X13.  Only a task that exits with a payload that decodes changes the
    resources of the entry.  When the task errors, is canceled, or exits
    with a payload that does not decode, an entry that is present keeps
    its resources and is set Idle, and no entry is created where there
    was none. *)
Theorem Reload_without_payload_keeps_resources
    id now workspaceID s s' (t : task.Task state.Cache) now' o c :
  state.Reload decode NewState id now workspaceID s = (s', inr t) →
  match o with
  | task.OutExited out => decode out = None
  | _ => True
  end →
  task.settle now' o t c
  = match c !! workspaceID with
    | Some st => <[workspaceID := state.setCacheState state.IdleState st]> c
    | None => c
    end.
Proof.
  intros (ws & mdl & -> & _)%Reload_inv Ho. rewrite settle_reload.
  destruct o as [out|err out|out]; [by rewrite Ho|done|done].
Qed.

(** X14.  The first successful reload creates the entry: when the cache
    has no entry for the workspace and the task exits with a payload that
    decodes, the entry becomes the state built from the payload, Idle,
    with the statuses the payload gives. *)
Theorem first_Reload_creates_entry
    id now workspaceID s s' (t : task.Task state.Cache) now' out file c :
  state.Reload decode NewState id now workspaceID s = (s', inr t) →
  c !! workspaceID = None →
  decode out = Some file →
  task.settle now' (task.OutExited out) t c
  = <[workspaceID :=
        state.setCacheState state.IdleState (NewState workspaceID file)]> c.
Proof.
  intros (ws & mdl & -> & _)%Reload_inv Hnone Hfile.
  rewrite settle_reload, Hfile. by rewrite Hnone.
Qed.

Lemma setStatus_Status (res : state.StateResource) :
  state.setStatus (state.Status res) res = res.
Proof. by destruct res. Qed.

Lemma State_eq (st1 st2 : state.State) :
  state.WorkspaceID st1 = state.WorkspaceID st2 →
  state.Resources st1 = state.Resources st2 →
  state.CacheState st1 = state.CacheState st2 →
  st1 = st2.
Proof. destruct st1, st2. simpl. by intros -> -> ->. Qed.

Lemma copyStatus_idem (previous current : state.State) :
  state.copyStatus (state.copyStatus previous current) current
  = state.copyStatus previous current.
Proof.
  apply State_eq; [done| |done]. apply map_eq. intros a.
  rewrite !copyStatus_lookup.
  destruct (state.Resources current !! a) as [res|]; simpl; [|done].
  destruct (state.Resources previous !! a) as [p|]; simpl; [done|].
  by rewrite setStatus_Status.
Qed.

Lemma copyStatus_self (current : state.State) :
  state.copyStatus current current = current.
Proof.
  apply State_eq; [done| |done]. apply map_eq. intros a.
  rewrite copyStatus_lookup.
  destruct (state.Resources current !! a) as [res|]; simpl; [|done].
  by rewrite setStatus_Status.
Qed.

(** A reload of an entry that is Reloading is rejected and changes
    nothing. *)
Lemma Reload_rejected_aux id now workspaceID s st :
  state.cache s !! workspaceID = Some st →
  state.CacheState st = state.ReloadingState →
  state.Reload decode NewState id now workspaceID s = (s, inl InvalidState).
Proof.
  intros Hst Hreloading. unfold state.Reload.
  rewrite (updateStateStatus_present _ _ _ st) by done.
  unfold state.startReload. rewrite Hreloading. simpl.
  rewrite insert_id by done. by rewrite setCache_cache.
Qed.

(** X15.  Reloading is idempotent on the merged entry: when a second
    reload task exits with the same payload as the first, the cache is
    exactly what the first left, statuses included, whether or not there
    was an entry to begin with. *)
Theorem Reload_same_payload_twice
    id1 now1 id2 now2 workspaceID s1 s1' s2 s2'
    (t1 t2 : task.Task state.Cache) n1 n2 out file c :
  state.Reload decode NewState id1 now1 workspaceID s1 = (s1', inr t1) →
  state.Reload decode NewState id2 now2 workspaceID s2 = (s2', inr t2) →
  decode out = Some file →
  task.settle n2 (task.OutExited out) t2
    (task.settle n1 (task.OutExited out) t1 c)
  = task.settle n1 (task.OutExited out) t1 c.
Proof.
  intros (ws1 & mdl1 & -> & _)%Reload_inv (ws2 & mdl2 & -> & _)%Reload_inv
    Hfile.
  rewrite !settle_reload, Hfile. rewrite lookup_insert_eq, insert_insert_eq.
  f_equal.
  destruct (c !! workspaceID) as [previous|].
  - change (state.copyStatus
              (state.setCacheState state.IdleState
                 (state.copyStatus previous (NewState workspaceID file)))
              (NewState workspaceID file))
      with (state.copyStatus
              (state.copyStatus previous (NewState workspaceID file))
              (NewState workspaceID file)).
    by rewrite copyStatus_idem.
  - change (state.copyStatus
              (state.setCacheState state.IdleState
                 (NewState workspaceID file))
              (NewState workspaceID file))
      with (state.copyStatus (NewState workspaceID file)
              (NewState workspaceID file)).
    by rewrite copyStatus_self.
Qed.

(** X16.  The guard holds while the task is pending and is released when
    it ends.  After a [Reload] that found an entry and created its task,
    another [Reload] of the workspace is rejected with InvalidState and
    changes nothing; once the task has ended, in any way, the entry is
    Idle and the guard lets a reload through. *)
Theorem Reload_guard_held_then_released
    id now workspaceID s s' (t : task.Task state.Cache) st :
  state.Reload decode NewState id now workspaceID s = (s', inr t) →
  state.cache s !! workspaceID = Some st →
  (∀ id2 now2,
     state.Reload decode NewState id2 now2 workspaceID s'
     = (s', inl InvalidState))
  ∧ ∀ now' o,
      (state.updateStateStatus workspaceID state.startReload
         (task.settle now' o t (state.cache s'))).2 = None.
Proof.
  intros HReload Hst.
  pose proof HReload as (ws & mdl & -> & Hcache & _)%Reload_inv.
  rewrite Hst in Hcache.
  assert (Hentry : state.cache s' !! workspaceID
                   = Some (state.setCacheState state.ReloadingState st))
    by (by rewrite Hcache, lookup_insert_eq).
  split.
  - intros id2 now2.
    by apply Reload_rejected_aux with
      (st := state.setCacheState state.ReloadingState st).
  - intros now' o. rewrite settle_reload.
    destruct (match o with task.OutExited out => decode out | _ => None end).
    + erewrite updateStateStatus_present by apply lookup_insert_eq. done.
    + rewrite Hentry.
      erewrite updateStateStatus_present by apply lookup_insert_eq. done.
Qed.

(** X17.  Without an entry there is no guard: for a workspace that has no
    cache entry (and is known, with its module), a second [Reload] made
    before the first task has ended is accepted too, and both state-pull
    tasks are pending in the task table. *)
Theorem Reload_unguarded_without_entry
    id1 now1 id2 now2 workspaceID s ws parent mdl :
  state.cache s !! workspaceID = None →
  state.workspaces s !! workspaceID = Some ws →
  resource.Parent (workspace.Resource ws) = Some parent →
  state.modules s !! resource.rID parent = Some mdl →
  id1 ≠ id2 →
  ∃ s1 t1 s2 t2,
    state.Reload decode NewState id1 now1 workspaceID s = (s1, inr t1)
    ∧ state.Reload decode NewState id2 now2 workspaceID s1 = (s2, inr t2)
    ∧ task.Get id1 (state.tasks s2) = inr t1
    ∧ task.Get id2 (state.tasks s2) = inr t2
    ∧ task.State t1 = task.Pending
    ∧ task.State t2 = task.Pending
    ∧ task.Command t1 = ["state"; "pull"]%string
    ∧ task.Command t2 = ["state"; "pull"]%string.
Proof.
  intros Hnone Hws Hparent Hmdl Hne.
  eexists _, _, _, _. split.
  { eapply Reload_creates; [done..|]. intros st Hst. congruence. }
  rewrite Hnone. split.
  { eapply Reload_creates; simpl; [done..|]. intros st Hst. congruence. }
  simpl. unfold task.Get, resource.Get. simpl.
  rewrite lookup_insert_ne by done. rewrite !lookup_insert_eq. done.
Qed.
End reload_outcomes_more.

Section delete_more.
Implicit Types (c : state.Cache) (s : state.Service) (st : state.State).
Implicit Types (workspaceID other id : resource.ID).
Implicit Types (addrs : list state.ResourceAddress).

(** X18.  [Delete] and the callbacks of its task touch one entry of the
    cache only: the entries of other workspaces are the same after
    [Delete] returns and after the task has ended in any way, and the
    module and workspace services are not changed. *)
Theorem Delete_touches_only_its_workspace
    id now workspaceID other addrs s s' (t : task.Task state.Cache) :
  state.Delete id now workspaceID addrs s = (s', inr t) →
  other ≠ workspaceID →
  state.cache s' !! other = state.cache s !! other
  ∧ state.modules s' = state.modules s
  ∧ state.workspaces s' = state.workspaces s
  ∧ ∀ now' o c, task.settle now' o t c !! other = c !! other.
Proof.
  intros (ws & mdl & -> & Hcache & Hm & Hw)%Delete_inv Hne.
  split; [|split; [done|split; [done|]]].
  - rewrite Hcache. by apply updateResourceStatus_lookup_ne.
  - intros now' o c. rewrite settle_delete.
    destruct o as [out|err out|out];
      [|by apply updateResourceStatus_lookup_ne..].
    destruct (c !! workspaceID); [|done]. by rewrite lookup_insert_ne.
Qed.

(** X19.  For a workspace without a cache entry, [Delete] still creates
    its task but has nothing to mark: the cache is unchanged when it
    returns, and the task's callbacks leave a cache without that entry
    as it is, however the task ends. *)
Theorem Delete_without_cache_entry
    id now workspaceID addrs s s' (t : task.Task state.Cache) :
  state.Delete id now workspaceID addrs s = (s', inr t) →
  state.cache s !! workspaceID = None →
  state.cache s' = state.cache s
  ∧ ∀ now' o c, c !! workspaceID = None → task.settle now' o t c = c.
Proof.
  intros (ws & mdl & -> & Hcache & _)%Delete_inv Hnone. split.
  - rewrite Hcache. by apply updateResourceStatus_absent.
  - intros now' o c Hc. rewrite settle_delete.
    destruct o as [out|err out|out];
      [by rewrite Hc|by apply updateResourceStatus_absent..].
Qed.

Lemma setResources_id st : state.setResources (state.Resources st) st = st.
Proof. by destruct st. Qed.

Lemma updateResourceStatus_nil workspaceID status c :
  state.updateResourceStatus workspaceID status [] c = c.
Proof.
  destruct (c !! workspaceID) as [st|] eqn:Hst.
  - rewrite (updateResourceStatus_present _ _ _ _ st) by done.
    replace ((λ res, if slices_Contains [] (state.Address res)
                     then state.setStatus status res else res)
               <$> state.Resources st) with (state.Resources st).
    + rewrite setResources_id. by apply insert_id.
    + apply map_eq. intros a. rewrite lookup_fmap.
      by destruct (state.Resources st !! a).
  - by apply updateResourceStatus_absent.
Qed.

(** X20.  A [Delete] that names no address changes no resource: the
    cache is the same when it returns, and the same again after the
    task's callbacks, however the task ends. *)
Theorem Delete_no_addresses
    id now workspaceID s s' (t : task.Task state.Cache) :
  state.Delete id now workspaceID [] s = (s', inr t) →
  state.cache s' = state.cache s
  ∧ ∀ now' o c, task.settle now' o t c = c.
Proof.
  intros (ws & mdl & -> & Hcache & _)%Delete_inv. split.
  - rewrite Hcache. apply updateResourceStatus_nil.
  - intros now' o c. rewrite settle_delete.
    destruct o as [out|err out|out];
      [|apply updateResourceStatus_nil..].
    destruct (c !! workspaceID) as [st|] eqn:Hst; [|done].
    unfold state.removeResources. simpl. rewrite setResources_id.
    by apply insert_id.
Qed.

(** X21.  A [Delete] from start to end, nothing else touching the entry
    in between, on an entry whose resources are stored under their
    addresses.  If the task exits, the entry is the one from before the
    [Delete] without the named resources; if it errors or is canceled,
    it is the one from before with the status of each named resource
    Idle, whatever that status was before the [Delete].  In both cases
    the resources that were not named are exactly as they were. *)
Theorem Delete_from_start_to_end
    id now workspaceID addrs s s' (t : task.Task state.Cache) st now' o :
  state.Delete id now workspaceID addrs s = (s', inr t) →
  state.cache s !! workspaceID = Some st →
  keyed st →
  ∃ st2,
    task.settle now' o t (state.cache s') !! workspaceID = Some st2
    ∧ state.WorkspaceID st2 = state.WorkspaceID st
    ∧ state.CacheState st2 = state.CacheState st
    ∧ ∀ a, state.Resources st2 !! a
           = match o with
             | task.OutExited _ =>
                 if bool_decide (a ∈ addrs) then None
                 else state.Resources st !! a
             | _ =>
                 (λ res, if bool_decide (a ∈ addrs)
                         then {| state.Address := state.Address res;
                                 state.Attributes := state.Attributes res;
                                 state.Status := state.Idle |}
                         else res)
                   <$> state.Resources st !! a
             end.
Proof.
  intros (ws & mdl & -> & Hcache & _)%Delete_inv Hst Hkeyed.
  rewrite (updateResourceStatus_present _ _ _ _ st) in Hcache by done.
  assert (Hmarked : ∀ a,
    ((λ res, if slices_Contains addrs (state.Address res)
             then state.setStatus state.Removing res else res)
       <$> state.Resources st) !! a
    = (λ res, if bool_decide (a ∈ addrs)
              then state.setStatus state.Removing res else res)
        <$> state.Resources st !! a)
    by (intros a; by apply markStatus_lookup).
  rewrite settle_delete, Hcache.
  destruct o as [out|err out|out].
  - rewrite lookup_insert_eq, lookup_insert_eq. eexists.
    split; [done|]. split; [done|]. split; [done|].
    intros a. rewrite removeResources_lookup. simpl. rewrite Hmarked.
    destruct (bool_decide (a ∈ addrs)); [done|].
    by destruct (state.Resources st !! a).
  - erewrite updateResourceStatus_present by apply lookup_insert_eq.
    rewrite lookup_insert_eq. eexists.
    split; [done|]. split; [done|]. split; [done|].
    intros a. simpl. rewrite lookup_fmap, Hmarked.
    destruct (state.Resources st !! a) as [res|] eqn:Hres; [|done].
    pose proof (Hkeyed a res Hres) as Ha.
    destruct res as [addr attrs status]. simpl in Ha. subst addr.
    simpl. unfold slices_Contains.
    by destruct (bool_decide (a ∈ addrs)) eqn:Hin; simpl; rewrite Hin.
  - erewrite updateResourceStatus_present by apply lookup_insert_eq.
    rewrite lookup_insert_eq. eexists.
    split; [done|]. split; [done|]. split; [done|].
    intros a. simpl. rewrite lookup_fmap, Hmarked.
    destruct (state.Resources st !! a) as [res|] eqn:Hres; [|done].
    pose proof (Hkeyed a res Hres) as Ha.
    destruct res as [addr attrs status]. simpl in Ha. subst addr.
    simpl. unfold slices_Contains.
    by destruct (bool_decide (a ∈ addrs)) eqn:Hin; simpl; rewrite Hin.
Qed.

Lemma keyed_mark status addrs st :
  keyed st →
  keyed (state.setResources
           ((λ res, if slices_Contains addrs (state.Address res)
                    then state.setStatus status res else res)
              <$> state.Resources st) st).
Proof.
  intros Hkeyed a res. simpl. rewrite lookup_fmap.
  destruct (state.Resources st !! a) as [res0|] eqn:Hres0; [|done].
  simpl. intros [= <-]. specialize (Hkeyed a res0 Hres0).
  by destruct (slices_Contains addrs (state.Address res0)).
Qed.

Lemma keyed_removeResources addrs st :
  keyed st → keyed (state.removeResources addrs st).
Proof.
  intros Hkeyed a res. rewrite removeResources_lookup.
  destruct (bool_decide (a ∈ addrs)); [done|]. apply Hkeyed.
Qed.

Lemma keyedCache_insert workspaceID st c :
  keyedCache c → keyed st → keyedCache (<[workspaceID := st]> c).
Proof.
  intros Hc Hst w st0 [[<- <-]|[_ H]]%lookup_insert_Some; [done|].
  by apply (Hc w).
Qed.

Lemma keyedCache_updateResourceStatus workspaceID status addrs c :
  keyedCache c →
  keyedCache (state.updateResourceStatus workspaceID status addrs c).
Proof.
  intros Hc. destruct (c !! workspaceID) as [st|] eqn:Hst.
  - rewrite (updateResourceStatus_present _ _ _ _ st) by done.
    apply keyedCache_insert; [done|]. apply keyed_mark. by apply (Hc _ _ Hst).
  - by rewrite updateResourceStatus_absent.
Qed.

(** X22.  [Delete] keeps the cache well keyed: if every resource of
    every entry is stored under its own address, the same holds when
    [Delete] returns and after its task's callbacks, however the task
    ends. *)
Theorem Delete_keeps_cache_keyed
    id now workspaceID addrs s s' (t : task.Task state.Cache) :
  state.Delete id now workspaceID addrs s = (s', inr t) →
  (keyedCache (state.cache s) → keyedCache (state.cache s'))
  ∧ ∀ now' o c, keyedCache c → keyedCache (task.settle now' o t c).
Proof.
  intros (ws & mdl & -> & Hcache & _)%Delete_inv. split.
  - intros Hc. rewrite Hcache. by apply keyedCache_updateResourceStatus.
  - intros now' o c Hc. rewrite settle_delete.
    destruct o as [out|err out|out];
      [|by apply keyedCache_updateResourceStatus..].
    destruct (c !! workspaceID) as [st|] eqn:Hst; [|done].
    apply keyedCache_insert; [done|].
    apply keyed_removeResources. by apply (Hc _ _ Hst).
Qed.
End delete_more.

Section reload_keyed.
Context {StateFile : Type}.
Variable decode : string → option StateFile.
Variable NewState : resource.ID → StateFile → state.State.

Lemma keyed_copyStatus (previous current : state.State) :
  keyed current → keyed (state.copyStatus previous current).
Proof.
  intros Hkeyed a res. rewrite copyStatus_lookup.
  destruct (state.Resources current !! a) as [res0|] eqn:Hres0; [|done].
  specialize (Hkeyed a res0 Hres0).
  destruct (state.Resources previous !! a); by intros [= <-].
Qed.

(** X23.  [Reload] keeps the cache well keyed, provided the state built
    from a payload is: if every resource of every entry is stored under
    its own address, the same holds when [Reload] returns and after its
    task's callbacks, however the task ends. *)
Theorem Reload_keeps_cache_keyed
    id now workspaceID s s' (t : task.Task state.Cache) :
  (∀ w file, keyed (NewState w file)) →
  state.Reload decode NewState id now workspaceID s = (s', inr t) →
  (keyedCache (state.cache s) → keyedCache (state.cache s'))
  ∧ ∀ now' o c, keyedCache c → keyedCache (task.settle now' o t c).
Proof.
  intros Hnew (ws & mdl & -> & Hcache & _)%Reload_inv. split.
  - intros Hc. rewrite Hcache.
    destruct (state.cache s !! workspaceID) as [st|] eqn:Hst; [|done].
    apply keyedCache_insert; [done|]. by apply (Hc _ _ Hst).
  - intros now' o c Hc. rewrite settle_reload.
    destruct (match o with task.OutExited out => decode out | _ => None end)
      as [file|].
    + apply keyedCache_insert; [done|].
      destruct (c !! workspaceID) as [previous|]; [|apply Hnew].
      apply (keyed_copyStatus previous (NewState workspaceID file)), Hnew.
    + destruct (c !! workspaceID) as [st|] eqn:Hst; [|done].
      apply keyedCache_insert; [done|]. by apply (Hc _ _ Hst).
Qed.
End reload_keyed.

Section created_task.
Implicit Types (s : state.Service).

(** X24.  Every task the state service creates ([Reload], [Delete] and
    [Taint] all go through [createTask]) runs in the module's path with
    the workspace selected through [TF_WORKSPACE], and hangs under the
    workspace: it has the workspace and the module as ancestors, so the
    task service lists it for either. *)
Theorem state_task_listed_under_workspace
    (SortFunc : ∀ A, (A → A → Z) → list A → list A)
    id now workspaceID (opts : task.CreateOptions.t state.Cache)
    s ws parent mdl :
  SortFuncSpec SortFunc →
  state.workspaces s !! workspaceID = Some ws →
  resource.rID (workspace.Resource ws) = workspaceID →
  resource.Parent (workspace.Resource ws) = Some parent →
  state.modules s !! resource.rID parent = Some mdl →
  task.CreateOptions.Command opts ≠ [] →
  ∃ s' t,
    state.createTask id now workspaceID opts s = (s', inr t)
    ∧ task.Path t = module.Path mdl
    ∧ task.Env t = ["TF_WORKSPACE=" +:+ workspace.Name ws]
    ∧ task.HasAncestor t workspaceID = true
    ∧ task.HasAncestor t (resource.rID parent) = true
    ∧ t ∈ task.List SortFunc (state.tasks s')
            {| task.ListOptions.Path := None;
               task.ListOptions.Status := None;
               task.ListOptions.Oldest := false;
               task.ListOptions.Blocking := false;
               task.ListOptions.Command := None;
               task.ListOptions.Ancestor := workspaceID |}
    ∧ t ∈ task.List SortFunc (state.tasks s')
            {| task.ListOptions.Path := Some (module.Path mdl);
               task.ListOptions.Status := Some [task.Pending];
               task.ListOptions.Oldest := true;
               task.ListOptions.Blocking := false;
               task.ListOptions.Command := None;
               task.ListOptions.Ancestor := resource.rID parent |}.
Proof.
  intros Hsort Hws Hid Hparent Hmdl Hcmd.
  eexists _, _. split; [by eapply createTask_creates|].
  assert (Hw : task.HasAncestor
                 (builtTask id now (finalOptions ws mdl opts)) workspaceID
               = true).
  { unfold task.HasAncestor. simpl.
    destruct (workspace.Resource ws) as [wid k p]. simpl in *. subst wid.
    rewrite (bool_decide_eq_true_2 (workspaceID = workspaceID)) by done.
    by rewrite !orb_true_r. }
  assert (Hm : task.HasAncestor
                 (builtTask id now (finalOptions ws mdl opts))
                 (resource.rID parent) = true).
  { unfold task.HasAncestor. simpl.
    destruct (workspace.Resource ws) as [wid k p]. simpl in *. subst p.
    destruct parent as [pid pk pp]. simpl.
    rewrite (bool_decide_eq_true_2 (pid = pid)) by done.
    by rewrite !orb_true_r. }
  split; [done|]. split; [done|]. split; [done|]. split; [done|].
  split.
  - apply (List_filters_and_sorts SortFunc _ _ Hsort). split.
    + exists id. simpl. by rewrite lookup_insert_eq.
    + repeat split; done.
  - apply (List_filters_and_sorts SortFunc _ _ Hsort). split.
    + exists id. simpl. by rewrite lookup_insert_eq.
    + repeat split; try done.
      * by intros p [= <-].
      * intros sts [= <-]. simpl. apply list_elem_of_here.
Qed.
End created_task.

(** ** Bulk creation of runs, workspaces and the task page *)

Section run_more.
Context {Run RS CreateOptions : Type}.
Variable runsCreate :
  resource.ID → CreateOptions → RS → RS * (option Run * option error).
Variable RunString : option Run → string.

Lemma omap_length_le {A B} (f : A → option B) (l : list A) :
  (length (omap f l) ≤ length l)%nat.
Proof.
  induction l as [|x l IH]; csimpl; [lia|]. destruct (f x); csimpl; lia.
Qed.

Lemma createLoop_attempts opts workspaceIDs (msg : run.CreatedRunsMsg Run) rs :
  run.createLoop runsCreate opts workspaceIDs msg rs
  = ((attempts runsCreate opts workspaceIDs rs).1,
     {| run.Runs :=
          run.Runs msg ++ (attempts runsCreate opts workspaceIDs rs).2.*1;
        run.CreateErrs :=
          run.CreateErrs msg
          ++ omap snd (attempts runsCreate opts workspaceIDs rs).2;
        run.Issuer := run.Issuer msg |}).
Proof.
  revert msg rs.
  induction workspaceIDs as [|wid rest IH]; intros msg rs; simpl.
  - rewrite !app_nil_r. by destruct msg.
  - destruct (runsCreate wid opts rs) as [rs1 [r e]].
    rewrite IH.
    destruct (attempts runsCreate opts rest rs1) as [rs2 results].
    destruct e as [e|]; simpl; by rewrite <- !app_assoc.
Qed.

(** X25.  [CreateRuns] gives no command for no workspace; otherwise its
    command calls the run service once for every workspace, in order,
    whatever fails on the way, and returns a message with one element of
    [Runs] per workspace (the run returned by the service, nil where it
    returned none), the errors in order in [CreateErrs], and the
    issuer. *)
Theorem CreateRuns_attempts_every_workspace issuer opts :
  run.CreateRuns runsCreate issuer opts [] = None
  ∧ ∀ wid rest,
      ∃ cmd,
        run.CreateRuns runsCreate issuer opts (wid :: rest) = Some cmd
        ∧ ∀ rs,
            cmd rs
            = ((attempts runsCreate opts (wid :: rest) rs).1,
               {| run.Runs :=
                    (attempts runsCreate opts (wid :: rest) rs).2.*1;
                  run.CreateErrs :=
                    omap snd (attempts runsCreate opts (wid :: rest) rs).2;
                  run.Issuer := issuer |})
            ∧ length (run.Runs (cmd rs).2) = S (length rest)
            ∧ (length (run.CreateErrs (cmd rs).2) ≤ S (length rest))%nat.
Proof.
  split; [done|]. intros wid rest. eexists. split; [done|].
  intros rs. rewrite createLoop_attempts.
  assert (Hlen : ∀ ids rs0,
    length (attempts runsCreate opts ids rs0).2 = length ids).
  { induction ids as [|w ids IH]; intros rs0; simpl; [done|].
    destruct (runsCreate w opts rs0) as [rs1 r].
    specialize (IH rs1).
    destruct (attempts runsCreate opts ids rs1) as [rs2 results].
    simpl in *. by rewrite IH. }
  specialize (Hlen (wid :: rest) rs).
  set (A := attempts runsCreate opts (wid :: rest) rs) in *.
  clearbody A. destruct A as [rs2 results]. simpl in *.
  split; [done|]. rewrite length_fmap. split; [done|].
  etransitivity; [apply omap_length_le|]. lia.
Qed.

(** X26.  [HandleCreatedRuns] reports either an info text or an error,
    never both and never neither: the error is set exactly when the
    message holds some error and not exactly one run, and the info text
    is empty exactly then.  It sends the user nowhere exactly when the
    message holds no run, to the run's page when it holds one, and to the
    issuer's run listing otherwise. *)
Theorem HandleCreatedRuns_info_or_error (msg : run.CreatedRunsMsg Run) :
  (is_Some (run.HandleCreatedRuns RunString msg).2 ↔
   length (run.Runs msg) ≠ 1%nat ∧ run.CreateErrs msg ≠ [])
  ∧ ((run.HandleCreatedRuns RunString msg).1.2 = ""%string ↔
     is_Some (run.HandleCreatedRuns RunString msg).2)
  ∧ (run.HandleCreatedRuns RunString msg).1.1
    = match run.Runs msg with
      | [] => None
      | [r] => Some (run.GoRun r)
      | _ => Some (run.GoRunList (run.Issuer msg))
      end.
Proof.
  unfold run.HandleCreatedRuns.
  destruct msg as [runs errs issuer]. simpl.
  destruct runs as [|r [|r2 runs]]; destruct errs as [|e [|e2 errs]];
    simpl; repeat split; try done;
    try (by intros [? ?]); try (by intros [[=] _]);
    try (by intros [? [=]]); try (by intros [_ ?]); try (by eauto);
    try (by intros [=]); try (by intros [? [=]]%is_Some_alt).
Qed.
End run_more.

Section workspace_more.

(** X27.  A workspace made by [New] hangs under its module: [ModuleID]
    returns the module's ID (it never panics), the workspace has the
    module, itself and the global entity as ancestors, it has no current
    run and auto-apply is off. *)
Theorem New_workspace_under_module id (mdl : module.Module) name :
  workspace.ModuleID (workspace.New id mdl name)
  = inr (resource.rID (module.Resource mdl))
  ∧ resource.HasAncestor (workspace.Resource (workspace.New id mdl name))
      (resource.rID (module.Resource mdl)) = true
  ∧ resource.HasAncestor (workspace.Resource (workspace.New id mdl name)) id
    = true
  ∧ resource.HasAncestor (workspace.Resource (workspace.New id mdl name))
      resource.GlobalID = true
  ∧ resource.rID (workspace.Resource (workspace.New id mdl name)) = id
  ∧ workspace.Name (workspace.New id mdl name) = name
  ∧ workspace.CurrentRunID (workspace.New id mdl name) = None
  ∧ workspace.AutoApply (workspace.New id mdl name) = false.
Proof.
  unfold workspace.ModuleID, workspace.New. simpl.
  destruct (module.Resource mdl) as [mid k p]. simpl.
  rewrite !(bool_decide_eq_true_2 (id = id)) by done.
  rewrite !(bool_decide_eq_true_2 (mid = mid)) by done.
  by rewrite !orb_true_r.
Qed.

Lemma substring_full (str : string) :
  String.substring 0 (String.length str) str = str.
Proof. induction str as [|ch rest IH]; simpl; [done|]. by rewrite IH. Qed.

(** X28.  [TerraformEnv] loses nothing of the name: the entry starts with
    [TF_WORKSPACE=], the name follows it, and two names give the same
    entry only if they are the same name. *)
Theorem TerraformEnv_injective (name1 name2 : string) :
  (workspace.TerraformEnv name1 = workspace.TerraformEnv name2 ↔
   name1 = name2)
  ∧ String.substring 0 13 (workspace.TerraformEnv name1)
    = "TF_WORKSPACE="%string
  ∧ String.substring 13 (String.length name1) (workspace.TerraformEnv name1)
    = name1.
Proof.
  unfold workspace.TerraformEnv. split; [|split].
  - split; [|by intros ->]. simpl. intros [= H]. exact H.
  - simpl. by destruct name1.
  - exact (substring_full name1).
Qed.
End workspace_more.

Section task_page.

(** X29.  The viewport of the task page never gets a negative width:
    [viewportWidth] is at least 0 for every model.  For a window width
    in the range of a terminal it is the width less 2 for the border and
    35 for the info sidebar, cut off at 0, so never more than the window
    width.  The height is not cut off: on a window-size message the
    viewport's height is the window's height, less 2 with a border,
    even when that is negative. *)
Theorem viewport_dimensions (m : tuitask.model) (msgWidth msgHeight : Z) :
  0 ≤ tuitask.viewportWidth m
  ∧ (0 ≤ tuitask.width m < 2 ^ 63 →
     tuitask.viewportWidth m
     = Z.max 0 (tuitask.width m
                - (if tuitask.border m then 2 else 0)
                - (if tuitask.showInfo m then 35 else 0))
     ∧ tuitask.viewportWidth m ≤ tuitask.width m)
  ∧ (0 ≤ msgWidth < 2 ^ 63 → 0 ≤ msgHeight < 2 ^ 63 →
     tuitask.width (tuitask.windowSize msgWidth msgHeight m).1 = msgWidth
     ∧ tuitask.height (tuitask.windowSize msgWidth msgHeight m).1
       = msgHeight - (if tuitask.border m then 2 else 0)
     ∧ (tuitask.windowSize msgWidth msgHeight m).2
       = (Z.max 0 (msgWidth
                   - (if tuitask.border m then 2 else 0)
                   - (if tuitask.showInfo m then 35 else 0)),
          msgHeight - (if tuitask.border m then 2 else 0))).
Proof.
  split; [unfold tuitask.viewportWidth; lia|].
  assert (Hw : ∀ mm, 0 ≤ tuitask.width mm < 2 ^ 63 →
    tuitask.viewportWidth mm
    = Z.max 0 (tuitask.width mm
               - (if tuitask.border mm then 2 else 0)
               - (if tuitask.showInfo mm then 35 else 0))).
  { intros mm Hrange. unfold tuitask.viewportWidth, tuitask.infoWidth.
    destruct (tuitask.border mm), (tuitask.showInfo mm);
      rewrite ?wrap_int_small; rewrite ?wrap_int_small; lia. }
  split.
  - intros Hrange. rewrite Hw by done. split; [done|].
    destruct (tuitask.border m), (tuitask.showInfo m); lia.
  - intros HW HH. unfold tuitask.windowSize, tuitask.setHeight. simpl.
    destruct m as [info bord h w]. simpl.
    split; [done|].
    assert (Hh : (if bord then wrap_int (msgHeight - 2) else msgHeight)
                 = msgHeight - (if bord then 2 else 0)).
    { destruct bord; [rewrite wrap_int_small|]; lia. }
    split; [done|]. rewrite Hh. f_equal.
    by rewrite Hw.
Qed.
End task_page.

(** ** The properties above on concrete inputs *)

Lemma exReload_eq (c : gmap resource.ID state.State) :
  (∀ st, c !! 2%N = Some st → state.CacheState st = state.IdleState) →
  state.Reload exDecode exNewState 20%N 5 2%N (exService c)
  = (exReloaded (exService c), inr exReloadTask).
Proof.
  intros Hidle. unfold exReloaded.
  by rewrite (Reload_creates exDecode exNewState 20%N 5 2%N (exService c)
                exWorkspace exModule exWsModule).
Qed.

Lemma exReload_idle_eq :
  state.Reload exDecode exNewState 20%N 5 2%N exIdleService
  = (exReloaded exIdleService, inr exReloadTask).
Proof.
  apply exReload_eq. intros st.
  unfold exIdleService. rewrite lookup_singleton_eq. by intros [= <-].
Qed.

Lemma exDelete_eq addrs (c : gmap resource.ID state.State) :
  state.Delete 21%N 6 2%N addrs (exService c)
  = (exDeleted addrs (exService c), inr (exDeleteTask addrs)).
Proof.
  unfold exDeleted, state.Delete.
  by rewrite (createTask_creates 21%N 6 2%N _ (exService c)
                exWorkspace exModule exWsModule).
Qed.

Lemma exNewState_keyed w file : keyed (exNewState w file).
Proof.
  intros a res. unfold exNewState. simpl.
  intros Hin%elem_of_list_to_map_2.
  apply list_elem_of_fmap in Hin as (a' & [= -> ->] & _). done.
Qed.

(** X1, witness: the finished tasks of module 1, oldest first. *)
Lemma List_filters_and_sorts_witness :
  (∀ t : task.Task unit,
     t ∈ task.List mergeSortFunc exTasks
           (exListOptions (Some [task.Exited; task.Errored]) true None 1%N) ↔
     (∃ id, task.table exTasks !! id = Some t)
     ∧ passes (exListOptions (Some [task.Exited; task.Errored]) true None 1%N)
         t)
  ∧ (length (task.List mergeSortFunc exTasks
               (exListOptions (Some [task.Exited; task.Errored]) true None
                  1%N))
     ≤ size (task.table exTasks))%nat
  ∧ StronglySorted (λ u1 u2, u1 ≤ u2)
      ((λ t : task.Task unit, task.Updated t)
         <$> task.List mergeSortFunc exTasks
               (exListOptions (Some [task.Exited; task.Errored]) true None
                  1%N)).
Proof.
  exact (List_filters_and_sorts mergeSortFunc exTasks
           (exListOptions (Some [task.Exited; task.Errored]) true None 1%N)
           mergeSortFunc_spec).
Defined.

(** X2, witness: the three-task table and an empty status slice. *)
Lemma List_empty_status_slice_witness :
  task.List mergeSortFunc exTasks (exListOptions (Some []) false None 0%N)
  = [].
Proof.
  exact (List_empty_status_slice mergeSortFunc exTasks
           (exListOptions (Some []) false None 0%N)
           mergeSortFunc_spec eq_refl).
Defined.

(** X4, witness: a creation, a deletion and a rejected creation on the three-task table. *)
Lemma Counter_counts_created_witness :
  task.Counter (runOps exOps (exTasks, tt)).1
  = task.Counter exTasks + Z.of_nat (countCreated exOps (exTasks, tt)).
Proof.
  apply (Counter_counts_created exOps (exTasks, tt)); vm_compute; done.
Defined.

(** X5, witness: the same calls on a new service. *)
Lemma NewService_invariants_witness :
  keyedTable (runOps exOps (task.NewService (task.ServiceOptions.mk "tofu"),
                            tt)).1
  ∧ Z.of_nat
      (size (task.table
               (runOps exOps
                  (task.NewService (task.ServiceOptions.mk "tofu"), tt)).1))
    ≤ task.Counter
        (runOps exOps (task.NewService (task.ServiceOptions.mk "tofu"), tt)).1.
Proof.
  apply (NewService_invariants (task.ServiceOptions.mk "tofu") exOps tt).
  vm_compute. done.
Defined.

(** X7, witness: task 99 is not in the three-task table. *)
Lemma Enqueue_Cancel_unknown_task_witness :
  task.Enqueue exUpdateState 99%N exTasks tt
  = (exTasks, tt, inl (Errorf "enqueuing task: " (Some NotFound)))
  ∧ task.Cancel exCancel 99%N exTasks tt = (exTasks, tt, inl NotFound).
Proof.
  apply (Enqueue_Cancel_unknown_task exUpdateState exCancel 99%N exTasks tt).
  reflexivity.
Defined.

(** X9, witness: a validate task is created in the three-task table. *)
Lemma created_task_is_listed_witness :
  ∃ s' w' t,
    task.Create 13%N 40 (exCreateOptions ["validate"]%string) exTasks tt
    = (s', w', inr t)
    ∧ (∀ lopts, passes lopts t → t ∈ task.List mergeSortFunc s' lopts)
    ∧ t ∈ task.List mergeSortFunc s'
            {| task.ListOptions.Path := None;
               task.ListOptions.Status := None;
               task.ListOptions.Oldest := false;
               task.ListOptions.Blocking := false;
               task.ListOptions.Command := None;
               task.ListOptions.Ancestor := resource.GlobalID |}
    ∧ (∀ lopts t', t' ∈ task.List mergeSortFunc s' lopts →
                   t' = t ∨ t' ∈ task.List mergeSortFunc exTasks lopts).
Proof.
  apply (created_task_is_listed mergeSortFunc 13%N 40
           (exCreateOptions ["validate"]%string) exTasks tt
           mergeSortFunc_spec).
  discriminate.
Defined.

(** X12, witness: workspace 2 is reloaded, workspace 3 is looked at. *)
Lemma Reload_touches_only_its_workspace_witness :
  state.cache (exReloaded exIdleService) !! 3%N
  = state.cache exIdleService !! 3%N
  ∧ state.modules (exReloaded exIdleService) = state.modules exIdleService
  ∧ state.workspaces (exReloaded exIdleService)
    = state.workspaces exIdleService
  ∧ ∀ now' o (c : gmap resource.ID state.State),
      task.settle now' o exReloadTask c !! 3%N = c !! 3%N.
Proof.
  apply (Reload_touches_only_its_workspace exDecode exNewState 20%N 5 2%N
           3%N exIdleService (exReloaded exIdleService) exReloadTask);
    [exact exReload_idle_eq | discriminate].
Defined.

(** X13, witness: the reload task of workspace 2 exits with an empty output. *)
Lemma Reload_without_payload_keeps_resources_witness :
  task.settle 9 (task.OutExited "") exReloadTask
    (state.cache (exReloaded exIdleService))
  = match state.cache (exReloaded exIdleService) !! 2%N with
    | Some st =>
        <[2%N := state.setCacheState state.IdleState st]>
          (state.cache (exReloaded exIdleService))
    | None => state.cache (exReloaded exIdleService)
    end.
Proof.
  apply (Reload_without_payload_keeps_resources exDecode exNewState 20%N 5
           2%N exIdleService (exReloaded exIdleService) exReloadTask 9
           (task.OutExited "") (state.cache (exReloaded exIdleService)));
    [exact exReload_idle_eq | reflexivity].
Defined.

(** X14, witness: workspace 2 is reloaded with an empty cache. *)
Lemma first_Reload_creates_entry_witness :
  task.settle 9 (task.OutExited "aws.a") exReloadTask ∅
  = <[2%N := state.setCacheState state.IdleState
               (exNewState 2%N ["aws.a"; "aws.c"]%string)]> ∅.
Proof.
  apply (first_Reload_creates_entry exDecode exNewState 20%N 5 2%N
           (exService ∅) (exReloaded (exService ∅)) exReloadTask 9 "aws.a"
           ["aws.a"; "aws.c"]%string ∅);
    [|reflexivity|reflexivity].
  apply exReload_eq. intros st. by rewrite lookup_empty.
Defined.

(** X15, witness: two reloads of workspace 2 exit with the same payload. *)
Lemma Reload_same_payload_twice_witness :
  task.settle 10 (task.OutExited "aws.a") exReloadTask
    (task.settle 9 (task.OutExited "aws.a") exReloadTask
       (state.cache (exReloaded exIdleService)))
  = task.settle 9 (task.OutExited "aws.a") exReloadTask
      (state.cache (exReloaded exIdleService)).
Proof.
  apply (Reload_same_payload_twice exDecode exNewState 20%N 5 20%N 5 2%N
           exIdleService (exReloaded exIdleService)
           exIdleService (exReloaded exIdleService)
           exReloadTask exReloadTask 9 10 "aws.a"
           ["aws.a"; "aws.c"]%string
           (state.cache (exReloaded exIdleService)));
    [exact exReload_idle_eq | exact exReload_idle_eq | reflexivity].
Defined.

(** X16, witness: workspace 2, Idle, is reloaded. *)
Lemma Reload_guard_held_then_released_witness :
  (∀ id2 now2,
     state.Reload exDecode exNewState id2 now2 2%N (exReloaded exIdleService)
     = (exReloaded exIdleService, inl InvalidState))
  ∧ ∀ now' o,
      (state.updateStateStatus 2%N state.startReload
         (task.settle now' o exReloadTask
            (state.cache (exReloaded exIdleService)))).2 = None.
Proof.
  apply (Reload_guard_held_then_released exDecode exNewState 20%N 5 2%N
           exIdleService (exReloaded exIdleService) exReloadTask
           (exState state.IdleState));
    [exact exReload_idle_eq | reflexivity].
Defined.

(** X17, witness: workspace 2 without an entry is reloaded twice. *)
Lemma Reload_unguarded_without_entry_witness :
  ∃ s1 t1 s2 t2,
    state.Reload exDecode exNewState 20%N 5 2%N (exService ∅)
    = (s1, inr t1)
    ∧ state.Reload exDecode exNewState 21%N 6 2%N s1 = (s2, inr t2)
    ∧ task.Get 20%N (state.tasks s2) = inr t1
    ∧ task.Get 21%N (state.tasks s2) = inr t2
    ∧ task.State t1 = task.Pending
    ∧ task.State t2 = task.Pending
    ∧ task.Command t1 = ["state"; "pull"]%string
    ∧ task.Command t2 = ["state"; "pull"]%string.
Proof.
  apply (Reload_unguarded_without_entry exDecode exNewState 20%N 5 21%N 6
           2%N (exService ∅) exWorkspace exModule exWsModule);
    [reflexivity | reflexivity | reflexivity | reflexivity | discriminate].
Defined.

(** X18, witness: [aws.a] of workspace 2 is removed, workspace 3 is looked at. *)
Lemma Delete_touches_only_its_workspace_witness :
  state.cache (exDeleted ["aws.a"%string] exIdleService) !! 3%N
  = state.cache exIdleService !! 3%N
  ∧ state.modules (exDeleted ["aws.a"%string] exIdleService)
    = state.modules exIdleService
  ∧ state.workspaces (exDeleted ["aws.a"%string] exIdleService)
    = state.workspaces exIdleService
  ∧ ∀ now' o (c : gmap resource.ID state.State),
      task.settle now' o (exDeleteTask ["aws.a"%string]) c !! 3%N = c !! 3%N.
Proof.
  apply (Delete_touches_only_its_workspace 21%N 6 2%N 3%N ["aws.a"%string]
           exIdleService (exDeleted ["aws.a"%string] exIdleService)
           (exDeleteTask ["aws.a"%string]));
    [apply exDelete_eq | discriminate].
Defined.

(** X19, witness: [aws.a] of workspace 2 is removed with an empty cache. *)
Lemma Delete_without_cache_entry_witness :
  state.cache (exDeleted ["aws.a"%string] (exService ∅))
  = state.cache (exService ∅)
  ∧ ∀ now' o (c : gmap resource.ID state.State),
      c !! 2%N = None →
      task.settle now' o (exDeleteTask ["aws.a"%string]) c = c.
Proof.
  apply (Delete_without_cache_entry 21%N 6 2%N ["aws.a"%string]
           (exService ∅) (exDeleted ["aws.a"%string] (exService ∅))
           (exDeleteTask ["aws.a"%string]));
    [apply exDelete_eq | reflexivity].
Defined.

(** X20, witness: a removal on workspace 2 that names no address. *)
Lemma Delete_no_addresses_witness :
  state.cache (exDeleted [] exIdleService) = state.cache exIdleService
  ∧ ∀ now' o (c : gmap resource.ID state.State),
      task.settle now' o (exDeleteTask []) c = c.
Proof.
  apply (Delete_no_addresses 21%N 6 2%N exIdleService
           (exDeleted [] exIdleService) (exDeleteTask [])).
  apply exDelete_eq.
Defined.

(** X21, witness: [aws.a] of workspace 2 is removed and the task exits. *)
Lemma Delete_from_start_to_end_witness :
  ∃ st2,
    task.settle 9 (task.OutExited "") (exDeleteTask ["aws.a"%string])
      (state.cache (exDeleted ["aws.a"%string] exIdleService)) !! 2%N
    = Some st2
    ∧ state.WorkspaceID st2 = state.WorkspaceID (exState state.IdleState)
    ∧ state.CacheState st2 = state.CacheState (exState state.IdleState)
    ∧ ∀ a, state.Resources st2 !! a
           = if bool_decide (a ∈ ["aws.a"%string]) then None
             else state.Resources (exState state.IdleState) !! a.
Proof.
  apply (Delete_from_start_to_end 21%N 6 2%N ["aws.a"%string]
           exIdleService (exDeleted ["aws.a"%string] exIdleService)
           (exDeleteTask ["aws.a"%string]) (exState state.IdleState) 9
           (task.OutExited ""));
    [apply exDelete_eq | reflexivity | apply exState_keyed].
Defined.

(** X22, witness: [aws.a] of workspace 2 is removed. *)
Lemma Delete_keeps_cache_keyed_witness :
  (keyedCache (state.cache exIdleService) →
   keyedCache (state.cache (exDeleted ["aws.a"%string] exIdleService)))
  ∧ ∀ now' o (c : gmap resource.ID state.State),
      keyedCache c →
      keyedCache (task.settle now' o (exDeleteTask ["aws.a"%string]) c).
Proof.
  apply (Delete_keeps_cache_keyed 21%N 6 2%N ["aws.a"%string]
           exIdleService (exDeleted ["aws.a"%string] exIdleService)
           (exDeleteTask ["aws.a"%string])).
  apply exDelete_eq.
Defined.

(** X23, witness: workspace 2 is reloaded. *)
Lemma Reload_keeps_cache_keyed_witness :
  (keyedCache (state.cache exIdleService) →
   keyedCache (state.cache (exReloaded exIdleService)))
  ∧ ∀ now' o (c : gmap resource.ID state.State),
      keyedCache c → keyedCache (task.settle now' o exReloadTask c).
Proof.
  apply (Reload_keeps_cache_keyed exDecode exNewState 20%N 5 2%N
           exIdleService (exReloaded exIdleService) exReloadTask);
    [exact exNewState_keyed | exact exReload_idle_eq].
Defined.

(** X24, witness: the taint task of [aws.b] on workspace 2. *)
Lemma state_task_listed_under_workspace_witness :
  ∃ s' t,
    state.createTask 22%N 7 2%N (state.taintOptions "aws.b") exIdleService
    = (s', inr t)
    ∧ task.Path t = module.Path exWsModule
    ∧ task.Env t = ["TF_WORKSPACE=" +:+ workspace.Name exWorkspace]
    ∧ task.HasAncestor t 2%N = true
    ∧ task.HasAncestor t (resource.rID exModule) = true
    ∧ t ∈ task.List mergeSortFunc (state.tasks s')
            {| task.ListOptions.Path := None;
               task.ListOptions.Status := None;
               task.ListOptions.Oldest := false;
               task.ListOptions.Blocking := false;
               task.ListOptions.Command := None;
               task.ListOptions.Ancestor := 2%N |}
    ∧ t ∈ task.List mergeSortFunc (state.tasks s')
            {| task.ListOptions.Path := Some (module.Path exWsModule);
               task.ListOptions.Status := Some [task.Pending];
               task.ListOptions.Oldest := true;
               task.ListOptions.Blocking := false;
               task.ListOptions.Command := None;
               task.ListOptions.Ancestor := resource.rID exModule |}.
Proof.
  apply (state_task_listed_under_workspace mergeSortFunc 22%N 7 2%N
           (state.taintOptions "aws.b") exIdleService exWorkspace exModule
           exWsModule);
    [exact mergeSortFunc_spec | reflexivity | reflexivity | reflexivity
    | reflexivity | discriminate].
Defined.

(** The cases of [TestService_List]: list all, list pending, list queued,
    list finished. *)
Example TestService_List :
  length (task.List mergeSortFunc exTestTasks
            (exListOptions None false None 0%N)) = 5%nat
  ∧ length (task.List mergeSortFunc exTestTasks
              (exListOptions (Some [task.Pending]) false None 0%N)) = 1%nat
  ∧ length (task.List mergeSortFunc exTestTasks
              (exListOptions (Some [task.Queued]) false None 0%N)) = 1%nat
  ∧ length (task.List mergeSortFunc exTestTasks
              (exListOptions (Some [task.Exited; task.Errored]) false None
                 0%N)) = 2%nat.
Proof. vm_compute. repeat split. Qed.
